(** * Goszakup ETL: the API client, the PostgreSQL loader and the Airflow DAG

    A shallow embedding of
    - [src/src/goszakup_client.py]  ([GoszakupAPIClient._make_request], [_paginate]),
    - [src/src/database.py]         ([GoszakupDB.insert_jsonb_batch], [upsert_batch]),
    - [src/dags/goszakup_etl_dag.py] (the task dependencies of [goszakup_full_etl]),
    and the properties of the specification checked against it. *)

From Stdlib Require Import String Ascii ZArith List Bool Arith Lia.
Import ListNotations.

Set Warnings "-register-all".

Open Scope string_scope.
Open Scope Z_scope.

(* ================================================================== *)
(** * Python values *)
(* ================================================================== *)

Module Py.

(** What [response.json()] decodes to, and what the records handed to the
    database hold.  [JNull] is Python's [None]. *)
Inductive json : Type :=
| JNull
| JBool (b : bool)
| JNum (n : Z)
| JStr (s : string)
| JArr (l : list json)
| JObj (kv : list (string * json)).

(** Python's truth value of an object ([if response], [if not next_page]). *)
Definition truthy (v : json) : bool :=
  match v with
  | JNull => false
  | JBool b => b
  | JNum n => negb (n =? 0)
  | JStr s => negb (s =? "")%string
  | JArr l => match l with [] => false | _ => true end
  | JObj kv => match kv with [] => false | _ => true end
  end.

(** [==] on decoded values. *)
Fixpoint json_eqb (a b : json) {struct a} : bool :=
  match a, b with
  | JNull, JNull => true
  | JBool x, JBool y => Bool.eqb x y
  | JNum x, JNum y => x =? y
  | JStr x, JStr y => (x =? y)%string
  | JArr x, JArr y =>
      (fix go (l1 l2 : list json) {struct l1} : bool :=
         match l1, l2 with
         | [], [] => true
         | u :: l1', v :: l2' => json_eqb u v && go l1' l2'
         | _, _ => false
         end) x y
  | JObj x, JObj y =>
      (fix go (l1 l2 : list (string * json)) {struct l1} : bool :=
         match l1, l2 with
         | [], [] => true
         | (k, u) :: l1', (k', v) :: l2' =>
             (k =? k')%string && json_eqb u v && go l1' l2'
         | _, _ => false
         end) x y
  | _, _ => false
  end.

(** The exceptions of the modelled code that no handler of it catches. *)
Inductive exn : Type :=
| AttributeError   (* [.get] / [.replace] on an object without it *)
| TypeError        (* [list.extend] of a non-iterable *)
| ValueError       (* [time.sleep] of a negative length *)
| OverflowError    (* [time.sleep] of a length that does not fit its clock *)
| DatabaseError.   (* [psycopg2.Error] *)

(** How a call ends: with a value, with an uncaught exception, or not
    within the fuel given to its [while True] loop. *)
Inductive outcome (A : Type) : Type :=
| Returns (a : A)
| Raises (e : exn)
| OutOfFuel.
Arguments Returns {A} a.
Arguments Raises {A} e.
Arguments OutOfFuel {A}.

(** A computation on a state [S]: the world of the client, the connection
    of the database object. *)
Definition St (S A : Type) : Type := S -> outcome A * S.

Definition ret {S A} (a : A) : St S A := fun s => (Returns a, s).
Definition raise {S A} (e : exn) : St S A := fun s => (Raises e, s).
Definition out_of_fuel {S A} : St S A := fun s => (OutOfFuel, s).

Definition bind {S A B} (m : St S A) (k : A -> St S B) : St S B :=
  fun s =>
    match m s with
    | (Returns a, s') => k a s'
    | (Raises e, s') => (Raises e, s')
    | (OutOfFuel, s') => (OutOfFuel, s')
    end.

(** [try: body / except Exception as e: handler(e)]. *)
Definition try_except {S A} (body : St S A) (handler : exn -> St S A) : St S A :=
  fun s =>
    match body s with
    | (Raises e, s') => handler e s'
    | r => r
    end.

Declare Scope py_scope.
Delimit Scope py_scope with py.
Notation "x <- m ;; k" := (bind m (fun x => k))
  (at level 100, m at next level, right associativity) : py_scope.
Notation "m ;;; k" := (bind m (fun _ => k))
  (at level 100, right associativity) : py_scope.

(** [dict.get(key, default)] on an association list. *)
Fixpoint assoc (k : string) (kv : list (string * json)) : option json :=
  match kv with
  | [] => None
  | (k', v) :: rest => if (k =? k')%string then Some v else assoc k rest
  end.

Definition dict_get (kv : list (string * json)) (k : string) (default : json) : json :=
  match assoc k kv with Some v => v | None => default end.

Definition keys (kv : list (string * json)) : list string := map fst kv.

(** [str.upper()].  A string stands for the text its bytes encode in
    UTF-8.  The ASCII letters [a]-[z] are raised and the other ASCII
    characters kept.  Ten characters outside ASCII have an upper case
    written in ASCII: sharp s (SS), dotless i (I), long s (S) and the
    ligatures U+FB00 to U+FB06 (FF, FI, FL, FFI, FFL, ST, ST).  The upper
    case of any other character outside ASCII has a character outside
    ASCII; such a result is not spelled out and stands as [None]: a text
    that no ASCII literal is equal to. *)
Definition upper_ascii (c : ascii) : ascii :=
  let n := nat_of_ascii c in
  if (97 <=? n)%nat && (n <=? 122)%nat then ascii_of_nat (n - 32) else c.

Definition upper_two_bytes (b1 b2 : N) : option string :=
  if ((b1 =? 195) && (b2 =? 159))%N then Some "SS"        (* U+00DF *)
  else if ((b1 =? 196) && (b2 =? 177))%N then Some "I"    (* U+0131 *)
  else if ((b1 =? 197) && (b2 =? 191))%N then Some "S"    (* U+017F *)
  else None.

Definition upper_three_bytes (b1 b2 b3 : N) : option string :=
  if ((b1 =? 239) && (b2 =? 172))%N then
    if (b3 =? 128)%N then Some "FF"                        (* U+FB00 *)
    else if (b3 =? 129)%N then Some "FI"                   (* U+FB01 *)
    else if (b3 =? 130)%N then Some "FL"                   (* U+FB02 *)
    else if (b3 =? 131)%N then Some "FFI"                  (* U+FB03 *)
    else if (b3 =? 132)%N then Some "FFL"                  (* U+FB04 *)
    else if (b3 =? 133)%N then Some "ST"                   (* U+FB05 *)
    else if (b3 =? 134)%N then Some "ST"                   (* U+FB06 *)
    else None
  else None.

Fixpoint upper (s : string) : option string :=
  match s with
  | EmptyString => Some EmptyString
  | String c1 rest1 =>
      if (N_of_ascii c1 <? 128)%N
      then option_map (String (upper_ascii c1)) (upper rest1)
      else
        match rest1 with
        | EmptyString => None
        | String c2 rest2 =>
            match upper_two_bytes (N_of_ascii c1) (N_of_ascii c2) with
            | Some u => option_map (append u) (upper rest2)
            | None =>
                match rest2 with
                | EmptyString => None
                | String c3 rest3 =>
                    match upper_three_bytes (N_of_ascii c1) (N_of_ascii c2)
                                            (N_of_ascii c3) with
                    | Some u => option_map (append u) (upper rest3)
                    | None => None
                    end
                end
            end
        end
  end.

(** [s.upper() == literal], for a literal written in ASCII. *)
Definition upper_is (s literal : string) : bool :=
  match upper s with
  | Some u => (u =? literal)%string
  | None => false
  end.

(** [s.replace(old, '')] for a non-empty [old]: the occurrences of [old]
    are dropped left to right, without overlap.  [skip] counts the
    characters of the occurrence being dropped. *)
Fixpoint remove_from (old : string) (skip : nat) (s : string) : string :=
  match s with
  | EmptyString => EmptyString
  | String c s' =>
      match skip with
      | S k => remove_from old k s'
      | O =>
          if String.prefix old s
          then remove_from old (String.length old - 1) s'
          else String c (remove_from old 0 s')
      end
  end.

Definition str_remove (s old : string) : string := remove_from old 0 s.

(** The characters of a string as one-character strings (iterating a [str]). *)
Fixpoint chars (s : string) : list json :=
  match s with
  | EmptyString => []
  | String c s' => JStr (String c EmptyString) :: chars s'
  end.

End Py.

(* ================================================================== *)
(** * goszakup_client.py *)
(* ================================================================== *)

Module Client.
Import Py.
Open Scope py_scope.

(** ** The world the client acts on *)

(** One call of [session.get] / [session.post]. *)
Record Request : Type := mkRequest {
  req_method : string;
  req_url : string;
  req_params : json;          (* [params=], [JNull] when not passed *)
  req_json : json;            (* [json=], [JNull] when not passed *)
  req_authorization : option string
}.

(** What the transport answers: an exception of [requests] raised by the
    call itself (connection error, timeout), or a response with a status
    and the value [response.json()] decodes its body to (a body that does
    not decode is not represented). *)
Inductive Reply : Type :=
| ConnectionFailure
| HttpReply (status : Z) (body : json).

(** The remote side: the answer to the [n]-th request made (counted from 0). *)
Definition Server : Type := nat -> Request -> Reply.

(** Requests sent and sleeps taken so far, most recent first. *)
Record World : Type := mkWorld {
  sent : list Request;
  slept : list Z
}.

Definition M : Type -> Type := St World.

(** The longest sleep [time.sleep] takes, in whole seconds: a length
    beyond it, in either direction, does not fit the clock of the
    interpreter (64 bits of nanoseconds). *)
Definition sleep_max : Z := 9223372036.

(** [time.sleep(secs)]: a length out of range is an [OverflowError], a
    negative length in range a [ValueError]. *)
Definition sleep (secs : Z) : M unit :=
  fun w =>
    if (secs <? - sleep_max) || (sleep_max <? secs)
    then (Raises OverflowError, w)
    else if secs <? 0 then (Raises ValueError, w)
    else (Returns tt, {| sent := sent w; slept := secs :: slept w |}).

(** [session.get(...)] / [session.post(...)]. *)
Definition session_send (srv : Server) (r : Request) : M Reply :=
  fun w => (Returns (srv (length (sent w)) r),
            {| sent := r :: sent w; slept := slept w |}).

(** [response.raise_for_status()] raises [HTTPError] on 4xx and 5xx. *)
Definition is_http_error (status : Z) : bool :=
  (400 <=? status) && (status <? 600).

(** ** GoszakupAPIClient *)

Definition BASE_URL : string := "https://ows.goszakup.gov.kz".

Record GoszakupAPIClient : Type := mkClient {
  token : option string;
  retry_count : Z;
  delay : Z
}.

(** [__init__]: the [Authorization] header is set when [token] is truthy. *)
Definition session_authorization (c : GoszakupAPIClient) : option string :=
  match token c with
  | Some t => if (t =? "")%string then None else Some ("Bearer " ++ t)%string
  | None => None
  end.

(** How the body of the [try] ends: by a [return], or in the handler of
    [requests.exceptions.RequestException]. *)
Inductive attempt_result : Type :=
| Finished (v : json)
| RequestException.

Section MakeRequest.
Variable c : GoszakupAPIClient.
Variable srv : Server.

Definition after_reply (reply : Reply) : M attempt_result :=
  match reply with
  | ConnectionFailure => ret RequestException
  | HttpReply status body =>
      if is_http_error status then ret RequestException
      else sleep (delay c) ;;; ret (Finished body)
  end.

Definition try_once (method url : string) (params json_data : json)
  : M attempt_result :=
  if upper_is method "GET" then
    reply <- session_send srv
               (mkRequest "GET" url params JNull (session_authorization c)) ;;
    after_reply reply
  else if upper_is method "POST" then
    reply <- session_send srv
               (mkRequest "POST" url JNull json_data (session_authorization c)) ;;
    after_reply reply
  else ret (Finished JNull).

(** [for attempt in range(self.retry_count)], [remaining] iterations
    left; falling off the loop returns [None]. *)
Fixpoint attempt_loop (method url : string) (params json_data : json)
         (remaining : nat) (attempt : Z) : M json :=
  match remaining with
  | O => ret JNull
  | S r =>
      res <- try_once method url params json_data ;;
      match res with
      | Finished v => ret v
      | RequestException =>
          if attempt <? retry_count c - 1
          then sleep (2 ^ attempt) ;;;
               attempt_loop method url params json_data r (attempt + 1)
          else ret JNull
      end
  end.

Definition _make_request (method endpoint : string) (params json_data : json)
  : M json :=
  attempt_loop method (BASE_URL ++ endpoint)%string params json_data
               (Z.to_nat (retry_count c)) 0.

(** ** _paginate *)

(** [response.get(key, default)]: only a [dict] has [get]. *)
Definition py_get (response : json) (k : string) (default : json) : M json :=
  match response with
  | JObj kv => ret (dict_get kv k default)
  | _ => raise AttributeError
  end.

(** [all_items.extend(items)]. *)
Definition py_extend (all_items : list json) (items : json) : M (list json) :=
  match items with
  | JArr l => ret (all_items ++ l)%list
  | JStr s => ret (all_items ++ chars s)%list
  | JObj kv => ret (all_items ++ map JStr (keys kv))%list
  | _ => raise TypeError
  end.

(** [next_page.replace(self.BASE_URL, '')]: only a [str] has [replace]. *)
Definition py_replace (next_page : json) : M string :=
  match next_page with
  | JStr s => ret (str_remove s BASE_URL)
  | _ => raise AttributeError
  end.

(** [next_page == ''] *)
Definition is_empty_str (v : json) : bool :=
  match v with JStr s => (s =? "")%string | _ => false end.

(** The request of one iteration: the URL of the next page when there
    is one, the endpoint with its parameters otherwise. *)
Definition page_request (endpoint : string) (params : json) (next_page : json)
  : M json :=
  if truthy next_page then
    current_endpoint <- py_replace next_page ;;
    _make_request "GET" current_endpoint JNull JNull
  else _make_request "GET" endpoint params JNull.

(** The [while True] loop, one iteration per unit of fuel. *)
Fixpoint paginate_loop (fuel : nat) (endpoint : string) (params : json)
         (all_items : list json) (next_page : json) : M (list json) :=
  match fuel with
  | O => out_of_fuel
  | S fuel' =>
      response <- page_request endpoint params next_page ;;
      if negb (truthy response) then ret all_items
      else
        items <- py_get response "items" (JArr []) ;;
        all_items' <- py_extend all_items items ;;
        next_page' <- py_get response "next_page" JNull ;;
        if negb (truthy next_page') || is_empty_str next_page'
        then ret all_items'
        else paginate_loop fuel' endpoint params all_items' next_page'
  end.

Definition _paginate (fuel : nat) (endpoint : string) (params : json)
  : M (list json) :=
  paginate_loop fuel endpoint params [] JNull.

End MakeRequest.

Definition world0 : World := {| sent := []; slept := [] |}.

(** ** Vocabulary of the statements *)

(** The request [_make_request] sends for a method, if it sends one. *)
Definition request_for (c : GoszakupAPIClient) (method url : string)
           (params json_data : json) : option Request :=
  if upper_is method "GET"
  then Some (mkRequest "GET" url params JNull (session_authorization c))
  else if upper_is method "POST"
  then Some (mkRequest "POST" url JNull json_data (session_authorization c))
  else None.


(** [n] waits [2 ** attempt], [2 ** (attempt + 1)], ..., most recent first. *)
Fixpoint backoff_waits (attempt : Z) (n : nat) : list Z :=
  match n with
  | O => []
  | S m => (backoff_waits (attempt + 1) m ++ [2 ^ attempt])%list
  end.


(** The list envelope of the API. *)
Definition envelope (items : list json) (next_page : json) : json :=
  JObj [("items", JArr items); ("next_page", next_page)].

(** [followed c srv endpoint params next w pages next' w']: from the cursor
    [next] in the world [w], the loop obtains the pages [pages] one after
    the other, each a non-empty object whose [items] is a list and whose
    [next_page] is truthy, and stands at the cursor [next'] in [w']. *)
Inductive followed (c : GoszakupAPIClient) (srv : Server)
          (endpoint : string) (params : json)
  : json -> World -> list (list json) -> json -> World -> Prop :=
| followed_nil : forall next w, followed c srv endpoint params next w [] next w
| followed_cons : forall next w kv w1 items np pages next' w',
    page_request c srv endpoint params next w = (Returns (JObj kv), w1) ->
    kv <> [] ->
    dict_get kv "items" (JArr []) = JArr items ->
    dict_get kv "next_page" JNull = np ->
    truthy np = true ->
    followed c srv endpoint params np w1 pages next' w' ->
    followed c srv endpoint params next w (items :: pages) next' w'.


(** The request of the first iteration. *)
Definition first_request (c : GoszakupAPIClient) (endpoint : string)
           (params : json) : Request :=
  mkRequest "GET" (BASE_URL ++ endpoint)%string params JNull
            (session_authorization c).




(** ** The endpoint methods *)



(** The paginated methods; [fuel] bounds the iterations of [_paginate]. *)
Definition get_subjects_all (c : GoszakupAPIClient) (srv : Server) (fuel : nat)
  : M (list json) := _paginate c srv fuel "/v3/subject/all" JNull.

Definition get_rnu (c : GoszakupAPIClient) (srv : Server) (fuel : nat)
  : M (list json) := _paginate c srv fuel "/v3/rnu" JNull.

Definition get_plans_all (c : GoszakupAPIClient) (srv : Server) (fuel : nat)
  : M (list json) := _paginate c srv fuel "/v3/plans/all" JNull.

Definition get_trd_buy_all (c : GoszakupAPIClient) (srv : Server) (fuel : nat)
  : M (list json) := _paginate c srv fuel "/v3/trd-buy/all" JNull.

Definition get_trd_app (c : GoszakupAPIClient) (srv : Server) (fuel : nat)
  : M (list json) := _paginate c srv fuel "/v3/trd-app" JNull.

Definition get_lots (c : GoszakupAPIClient) (srv : Server) (fuel : nat)
  : M (list json) := _paginate c srv fuel "/v3/lots" JNull.

Definition get_contracts_all (c : GoszakupAPIClient) (srv : Server) (fuel : nat)
  : M (list json) := _paginate c srv fuel "/v3/contract/all" JNull.

Definition get_acts (c : GoszakupAPIClient) (srv : Server) (fuel : nat)
  : M (list json) := _paginate c srv fuel "/v3/acts" JNull.

Definition get_treasury_payments (c : GoszakupAPIClient) (srv : Server)
           (fuel : nat) : M (list json) :=
  _paginate c srv fuel "/v3/treasury-pay" JNull.

(** The thirty methods [get_ref_...]: each fetches [/v3/refs/<name>]. *)
Definition get_ref (c : GoszakupAPIClient) (srv : Server) (fuel : nat)
           (name : string) : M (list json) :=
  _paginate c srv fuel ("/v3/refs/" ++ name)%string JNull.

(** A request of a following page: a [GET] without parameters. *)
Definition bare_get (r : Request) : Prop :=
  req_method r = "GET" /\ req_params r = JNull /\ req_json r = JNull.

End Client.

(* ================================================================== *)
(** * Example runs *)
(* ================================================================== *)

Module Scenario.
Import Py Client.

(** The client of the DAG's defaults: three attempts, one second of delay. *)
Definition client3 : GoszakupAPIClient := mkClient None 3 1.

Definition item (n : Z) : json := JObj [("id", JNum n)].

Definition items_from (start : Z) (n : nat) : list json :=
  map (fun i => item (start + Z.of_nat i)) (seq 0 n).





(** The collection that consists of the first page only. *)
Definition one_page : Server :=
  fun _ _ => HttpReply 200 (envelope [item 1; item 2] JNull).

(** Pages of 10, 10 and 5 items, the last one with [next_page] null. *)
Definition three_pages : Server :=
  fun _ r =>
    if (req_url r =? BASE_URL ++ "/v3/subject")%string
    then HttpReply 200 (envelope (items_from 0 10)
                                 (JStr (BASE_URL ++ "/v3/subject?page=2")))
    else if (req_url r =? BASE_URL ++ "/v3/subject?page=2")%string
    then HttpReply 200 (envelope (items_from 10 10)
                                 (JStr (BASE_URL ++ "/v3/subject?page=3")))
    else HttpReply 200 (envelope (items_from 20 5) JNull).

(** The request the client of the examples sends for a URL. *)
Definition get_url (url : string) : Request :=
  mkRequest "GET" url JNull JNull None.

Definition page1_url : string := BASE_URL ++ "/v3/subject".
Definition page2_url : string := BASE_URL ++ "/v3/subject?page=2".
Definition page3_url : string := BASE_URL ++ "/v3/subject?page=3".




(** A client built with no attempt at all, and one with a negative delay. *)
Definition client_no_attempt : GoszakupAPIClient := mkClient None 0 1.
Definition client_negative_delay : GoszakupAPIClient := mkClient None 3 (-1).




(** The full list of subjects in two pages. *)
Definition subjects_all_url : string := BASE_URL ++ "/v3/subject/all".
Definition subjects_all_url2 : string := BASE_URL ++ "/v3/subject/all?page=2".

Definition subjects_server : Server :=
  fun _ r =>
    if (req_url r =? subjects_all_url)%string
    then HttpReply 200 (envelope [item 1; item 2] (JStr subjects_all_url2))
    else HttpReply 200 (envelope [item 3] JNull).

End Scenario.

(* ================================================================== *)
(** * database.py *)
(* ================================================================== *)

Module DB.
Import Py.
Open Scope py_scope.

(** ** The storage behind the connection *)

(** A row: the value of each column; a column that is not listed is NULL.
    [JNull] is SQL's NULL. *)
Definition Row : Type := list (string * json).

Definition row_get (r : Row) (col : string) : json := dict_get r col JNull.

Fixpoint row_set (r : Row) (col : string) (v : json) : Row :=
  match r with
  | [] => [(col, v)]
  | (c, x) :: rest =>
      if (col =? c)%string then (c, v) :: rest else (c, x) :: row_set rest col v
  end.

(** A table of the schema: its columns, the column sets of its unique
    constraints, its rows in insertion order. *)
Record Table : Type := mkTable {
  table_columns : list string;
  unique_keys : list (list string);
  rows : list Row
}.

Definition Tables : Type := list (string * Table).

Fixpoint lookup (name : string) (ts : Tables) : option Table :=
  match ts with
  | [] => None
  | (n, t) :: rest => if (name =? n)%string then Some t else lookup name rest
  end.

Fixpoint store (name : string) (t : Table) (ts : Tables) : Tables :=
  match ts with
  | [] => [(name, t)]
  | (n, x) :: rest =>
      if (name =? n)%string then (n, t) :: rest else (n, x) :: store name t rest
  end.

(** What an [INSERT] does on a conflict. *)
Inductive OnConflict : Type :=
| DoNothing
| DoUpdate (target : list string) (set_columns : list string).

(** [INSERT INTO into (columns) VALUES tuples ON CONFLICT ...], the
    statement [execute_values] sends for one page of tuples. *)
Record Insert : Type := mkInsert {
  into : string;
  columns : list string;
  tuples : list (list json);
  on_conflict : OnConflict
}.

Definition is_null (v : json) : bool :=
  match v with JNull => true | _ => false end.

(** Two rows collide on a key when they agree on all its columns and none
    of these values is NULL. *)
Definition same_key (key : list string) (r1 r2 : Row) : bool :=
  forallb (fun col => negb (is_null (row_get r1 col))
                      && json_eqb (row_get r1 col) (row_get r2 col)) key.

Definition mem (x : string) (l : list string) : bool :=
  existsb (String.eqb x) l.

Definition same_columns (k1 k2 : list string) : bool :=
  forallb (fun x => mem x k2) k1 && forallb (fun x => mem x k1) k2.

Fixpoint no_dup (l : list string) : bool :=
  match l with
  | [] => true
  | x :: rest => negb (mem x rest) && no_dup rest
  end.

(** The row collides with one of [others] on one of the keys. *)
Definition violates (keys : list (list string)) (r : Row) (others : list Row)
  : bool :=
  existsb (fun key => existsb (same_key key r) others) keys.

(** [SET col = EXCLUDED.col] for the columns [set_columns]. *)
Definition overwrite (set_columns : list string) (excluded old : Row) : Row :=
  fold_left (fun r col => row_set r col (row_get excluded col)) set_columns old.

(** [ON CONFLICT DO NOTHING]: a row that collides on any unique key is
    skipped, the others are appended. *)
Fixpoint insert_do_nothing (keys : list (list string)) (old : list Row)
         (new : list Row) : list Row :=
  match new with
  | [] => old
  | r :: rest =>
      if violates keys r old then insert_do_nothing keys old rest
      else insert_do_nothing keys (old ++ [r]) rest
  end.

(** [ON CONFLICT (target) DO UPDATE SET ...], for a [SET] list that leaves
    the target columns alone (as [upsert_batch] builds it): a row whose key
    is already in the table overwrites the [SET] columns of the row that
    has it, another row is appended.  The command fails when a row has the
    key of an earlier row of the same command ([seen]), or when the row it
    writes collides on another unique key. *)
Fixpoint insert_do_update (target set_columns : list string)
         (others : list (list string)) (seen old new : list Row)
  : option (list Row) :=
  match new with
  | [] => Some old
  | r :: rest =>
      if existsb (same_key target r) seen then None
      else if existsb (same_key target r) old then
        let updated :=
          map (fun o => if same_key target r o
                        then overwrite set_columns r o else o) old in
        if existsb (fun o => same_key target r o
                             && violates others o
                                  (filter (fun x => negb (same_key target r x))
                                          updated))
                   updated
        then None
        else insert_do_update target set_columns others (r :: seen) updated rest
      else if violates others r old then None
      else insert_do_update target set_columns others (r :: seen)
                            (old ++ [r]) rest
  end.

(** The rows of a table after the statement, [None] when PostgreSQL
    rejects it. *)
Definition run_insert (q : Insert) (t : Table) : option (list Row) :=
  match columns q with
  | [] => None
  | _ =>
      if negb (no_dup (columns q)) then None
      else if negb (forallb (fun col => mem col (table_columns t)) (columns q))
      then None
      else
        let new := map (fun tuple => combine (columns q) tuple) (tuples q) in
        match on_conflict q with
        | DoNothing => Some (insert_do_nothing (unique_keys t) (rows t) new)
        | DoUpdate target set_columns =>
            match target, set_columns with
            | [], _ | _, [] => None
            | _, _ =>
                if negb (existsb (same_columns target) (unique_keys t))
                then None
                else
                  insert_do_update
                    target set_columns
                    (filter (fun key => negb (same_columns target key))
                            (unique_keys t))
                    [] (rows t) new
            end
        end
  end.

Definition execute (q : Insert) (ts : Tables) : option Tables :=
  match lookup (into q) ts with
  | None => None
  | Some t =>
      match run_insert q t with
      | None => None
      | Some rs =>
          Some (store (into q)
                      (mkTable (table_columns t) (unique_keys t) rs) ts)
      end
  end.

(** ** The connection *)

(** What goes over the connection. *)
Inductive Call : Type :=
| Execute (q : Insert)
| Commit
| Rollback.

(** The connection of a connected [GoszakupDB]: the committed tables, the
    tables as the open transaction sees them, and the calls made so far
    (most recent first). *)
Record Conn : Type := mkConn {
  committed : Tables;
  pending : Tables;
  calls : list Call
}.

(** No write is waiting for a commit. *)
Definition clean (s : Conn) : Prop := pending s = committed s.

(** What the code does not decide: whether the [n]-th call made over the
    connection fails for a reason of its own (the connection drops, the
    data does not fit a column), and what [datetime.now()] reads for the
    [i]-th record of a batch. *)
Record Env : Type := mkEnv {
  fault : nat -> bool;
  now : nat -> Z
}.

Section Connection.
Variable env : Env.

(** [cursor.execute(statement)]. *)
Definition cursor_execute (q : Insert) : St Conn unit :=
  fun s =>
    let s1 := mkConn (committed s) (pending s) (Execute q :: calls s) in
    if fault env (length (calls s)) then (Raises DatabaseError, s1)
    else
      match execute q (pending s) with
      | None => (Raises DatabaseError, s1)
      | Some ts => (Returns tt, mkConn (committed s) ts (Execute q :: calls s))
      end.

(** [self.conn.commit()]. *)
Definition commit : St Conn unit :=
  fun s =>
    if fault env (length (calls s))
    then (Raises DatabaseError,
          mkConn (committed s) (pending s) (Commit :: calls s))
    else (Returns tt, mkConn (pending s) (pending s) (Commit :: calls s)).

(** [self.conn.rollback()]: the writes of the transaction are dropped (the
    server drops them as well when the connection itself is lost). *)
Definition rollback : St Conn unit :=
  fun s => (Returns tt, mkConn (committed s) (committed s) (Rollback :: calls s)).

(** The pages of [psycopg2.extras.execute_values]: [page_size] elements
    each, the last one with what is left.  [room] is the room left in the
    page being filled, [page] its elements, last one first. *)
Fixpoint pages_from {A} (page_size room : nat) (page : list A) (l : list A)
  : list (list A) :=
  match l with
  | [] => match page with [] => [] | _ => [rev page] end
  | x :: rest =>
      match room with
      | S (S r) => pages_from page_size (S r) (x :: page) rest
      | _ => rev (x :: page) :: pages_from page_size page_size [] rest
      end
  end.

Definition pages_of {A} (page_size : nat) (l : list A) : list (list A) :=
  pages_from page_size page_size [] l.

Fixpoint execute_pages (table : string) (cols : list string)
         (how : OnConflict) (pages : list (list (list json)))
  : St Conn unit :=
  match pages with
  | [] => ret tt
  | page :: rest =>
      cursor_execute (mkInsert table cols page how) ;;;
      execute_pages table cols how rest
  end.

(** [execute_values(cursor, query, values)] with the default page size. *)
Definition execute_values (table : string) (cols : list string)
           (how : OnConflict) (values : list (list json)) : St Conn unit :=
  execute_pages table cols how (pages_of 100 values).

(** ** GoszakupDB *)

(** [datetime.now()] for each record of the batch. *)
Definition jsonb_values (data : list Row) : list (list json) :=
  map (fun ir => [JObj (snd ir); JNum (now env (fst ir))])
      (combine (seq 0 (length data)) data).

Definition insert_jsonb_batch (table : string) (data : list Row)
  : St Conn json :=
  match data with
  | [] => ret JNull
  | _ =>
      try_except
        (execute_values table ["data"; "created_at"] DoNothing
                        (jsonb_values data) ;;;
         commit ;;;
         ret JNull)
        (fun e => rollback ;;; raise e)
  end.

Definition upsert_columns (data : list Row) : list string :=
  match data with
  | [] => []
  | first :: _ => keys first
  end.

Definition upsert_values (data : list Row) : list (list json) :=
  map (fun record =>
         map (fun col => dict_get record col JNull) (upsert_columns data))
      data.

Definition update_columns (data : list Row) (conflict_columns : list string)
  : list string :=
  filter (fun col => negb (mem col conflict_columns)) (upsert_columns data).

Definition upsert_batch (table : string) (data : list Row)
           (conflict_columns : list string) : St Conn json :=
  match data with
  | [] => ret JNull
  | _ =>
      try_except
        (execute_values table (upsert_columns data)
                        (DoUpdate conflict_columns
                                  (update_columns data conflict_columns))
                        (upsert_values data) ;;;
         commit ;;;
         ret JNull)
        (fun e => rollback ;;; raise e)
  end.

End Connection.

(** ** Vocabulary of the statements *)





(** ** The other writers *)

(** [insert_batch]: the typed insert, [ON CONFLICT DO NOTHING]; columns
    and values are taken as in [upsert_batch]. *)
Definition insert_batch (env : Env) (table : string) (data : list Row)
  : St Conn json :=
  match data with
  | [] => ret JNull
  | _ =>
      try_except
        (execute_values env table (upsert_columns data) DoNothing
                        (upsert_values data) ;;;
         commit env ;;;
         ret JNull)
        (fun e => rollback ;;; raise e)
  end.

(** [insert_jsonb_batch] on what a fetch returns: [Json(record)] takes any
    decoded value, an object or not. *)
Definition jsonb_values_json (env : Env) (data : list json)
  : list (list json) :=
  map (fun ir => [snd ir; JNum (now env (fst ir))])
      (combine (seq 0 (length data)) data).

Definition insert_jsonb_batch_json (env : Env) (table : string)
           (data : list json) : St Conn json :=
  match data with
  | [] => ret JNull
  | _ =>
      try_except
        (execute_values env table ["data"; "created_at"] DoNothing
                        (jsonb_values_json env data) ;;;
         commit env ;;;
         ret JNull)
        (fun e => rollback ;;; raise e)
  end.

(** The rows [insert_jsonb_batch] sends for a batch. *)
Definition jsonb_rows (env : Env) (data : list Row) : list Row :=
  map (fun ir => [("data", JObj (snd ir)); ("created_at", JNum (now env (fst ir)))])
      (combine (seq 0 (length data)) data).

(** The rows [insert_jsonb_batch] sends for the items of a fetch. *)
Definition jsonb_rows_json (env : Env) (data : list json) : list Row :=
  map (fun ir => [("data", snd ir); ("created_at", JNum (now env (fst ir)))])
      (combine (seq 0 (length data)) data).

(** A storage without faults. *)
Definition faultless (env : Env) : Prop := forall n, fault env n = false.

(** A table that can take the two columns of a document row. *)
Definition document_table (t : Table) : Prop :=
  mem "data" (table_columns t) = true
  /\ mem "created_at" (table_columns t) = true.

(** How a write that had something to write leaves the connection: with
    no write pending, after a [Commit] when it returned and after a
    [Rollback] when it raised. *)
Definition ends_transaction (r : outcome json * Conn) : Prop :=
  clean (snd r)
  /\ ((fst r = Returns JNull /\ hd_error (calls (snd r)) = Some Commit)
      \/ (exists e, fst r = Raises e
                    /\ hd_error (calls (snd r)) = Some Rollback)).

End DB.

Module DBScenario.
Import Py DB.

(** A storage without faults; the clock advances by one per record. *)
Definition calm : Env := mkEnv (fun _ => false) (fun i => 1700000000 + Z.of_nat i).

(** A storage whose second call fails. *)
Definition second_call_fails : Env :=
  mkEnv (fun n => Nat.eqb n 1) (fun i => 1700000000 + Z.of_nat i).

(** A reference table with one row already in it, and a fact table with a
    unique constraint on [id]. *)
Definition subjects0 : Table :=
  mkTable ["data"; "created_at"] []
          [[("data", JObj [("id", JNum 0)]); ("created_at", JNum 1600000000)]].

Definition contracts0 : Table := mkTable ["id"; "val"] [["id"]] [].

Definition tables0 : Tables := [("subjects", subjects0); ("contracts", contracts0)].

Definition conn0 : Conn := mkConn tables0 tables0 [].

(** A batch of 150 records: two pages of [execute_values]. *)
Definition batch150 : list Row :=
  map (fun i => [("id", JNum (Z.of_nat i))]) (seq 1 150).









End DBScenario.

(* ================================================================== *)
(** * database.py: GoszakupETL *)
(* ================================================================== *)

Module ETL.
Import Py Client DB.
Open Scope py_scope.

(** What a load acts on: the world of the API client and the connection
    of the database object. *)
Record Sys : Type := mkSys {
  world : World;
  conn : Conn
}.

Definition on_api {A} (m : St World A) : St Sys A :=
  fun s => (fst (m (world s)), mkSys (snd (m (world s))) (conn s)).

Definition on_db {A} (m : St Conn A) : St Sys A :=
  fun s => (fst (m (conn s)), mkSys (world s) (snd (m (conn s)))).

Section Loads.
Variable api : GoszakupAPIClient.
Variable srv : Server.
Variable env : Env.
Variable fuel : nat.

(** The body shared by the [load_...] methods:
    [try: data = fetch(); if data: insert_jsonb_batch(table, data)]
    [except Exception as e: logger.error(...)]. *)
Definition load_table (fetch : St World (list json)) (table : string)
  : St Sys unit :=
  try_except
    (data <- on_api fetch ;;
     match data with
     | [] => ret tt
     | _ => on_db (insert_jsonb_batch_json env table data) ;;; ret tt
     end)
    (fun _ => ret tt).

Definition load_subjects : St Sys unit :=
  load_table (get_subjects_all api srv fuel) "subjects".
Definition load_rnu : St Sys unit :=
  load_table (get_rnu api srv fuel) "rnu".
Definition load_plans : St Sys unit :=
  load_table (get_plans_all api srv fuel) "plans".
Definition load_announcements : St Sys unit :=
  load_table (get_trd_buy_all api srv fuel) "announcements".
Definition load_applications : St Sys unit :=
  load_table (get_trd_app api srv fuel) "applications".
Definition load_lots : St Sys unit :=
  load_table (get_lots api srv fuel) "lots".
Definition load_contracts : St Sys unit :=
  load_table (get_contracts_all api srv fuel) "contracts".
Definition load_acts : St Sys unit :=
  load_table (get_acts api srv fuel) "acts".
Definition load_payments : St Sys unit :=
  load_table (get_treasury_payments api srv fuel) "payments".

(** The keys of the dictionary [references], in its order; the method of
    the key [name] is [get_<name>], which fetches [/v3/refs/<name>]. *)
Definition references : list string :=
  ["ref_lots_status"; "ref_trade_methods"; "ref_units"; "ref_months";
   "ref_pln_point_status"; "ref_subject_type"; "ref_finsource"; "ref_abp";
   "ref_point_type"; "ref_kato"; "ref_countries"; "ref_ekrb";
   "ref_fkrb_program"; "ref_fkrb_subprogram"; "ref_justification";
   "ref_amendment_agreem_type"; "ref_amendm_agreem_justif"; "ref_budget_type";
   "ref_type_trade"; "ref_buy_status"; "ref_po_st"; "ref_comm_roles";
   "ref_contract_status"; "ref_contract_agr_form"; "ref_contract_year_type";
   "ref_currency"; "ref_contract_cancel"; "ref_contract_type"; "ref_reason";
   "ref_buy_lot_reject_reason"].

(** [for table_name, api_method in references.items()]. *)
Fixpoint load_references_loop (names : list string) : St Sys unit :=
  match names with
  | [] => ret tt
  | name :: rest =>
      load_table (get_ref api srv fuel name) name ;;;
      load_references_loop rest
  end.

Definition load_references : St Sys unit := load_references_loop references.


End Loads.



End ETL.

(* ================================================================== *)
(** * goszakup_etl_dag.py *)
(* ================================================================== *)

Module Dag.

(** The tasks of the DAG [goszakup_full_etl], named by their [task_id]. *)
Inductive Task : Type :=
| check_db_connection
| load_references
| load_subjects
| load_rnu
| load_plans
| load_announcements
| load_applications
| load_lots
| load_contracts
| load_acts
| load_payments
| print_statistics.

Scheme Equality for Task.

Definition all_tasks : list Task :=
  [check_db_connection; load_references; load_subjects; load_rnu; load_plans;
   load_announcements; load_applications; load_lots; load_contracts;
   load_acts; load_payments; print_statistics].

(** [a >> b], [a >> [b1, ...]] and [[a1, ...] >> b]: the edges they add. *)
Definition then_one (a b : Task) : list (Task * Task) := [(a, b)].
Definition then_each (a : Task) (bs : list Task) : list (Task * Task) :=
  map (fun b => (a, b)) bs.
Definition each_then (la : list Task) (b : Task) : list (Task * Task) :=
  map (fun a => (a, b)) la.

(** The dependencies, statement by statement. *)
Definition dependencies : list (Task * Task) :=
  (then_one check_db_connection load_references
   ++ then_each load_references [load_subjects; load_rnu; load_plans]
   ++ then_one load_plans load_announcements
   ++ then_each load_announcements [load_applications; load_lots]
   ++ then_one load_lots load_contracts
   ++ then_each load_contracts [load_acts; load_payments]
   ++ each_then [load_subjects; load_rnu; load_acts; load_payments]
                print_statistics)%list.

(** The direct upstream tasks of a task. *)
Definition upstream (t : Task) : list Task :=
  map fst (filter (fun e => Task_beq (snd e) t) dependencies).

(** [ancestor u t]: a chain of dependencies leads from [u] to [t]. *)
Inductive ancestor : Task -> Task -> Prop :=
| ancestor_direct : forall u t, In u (upstream t) -> ancestor u t
| ancestor_step : forall u v t,
    ancestor u v -> In v (upstream t) -> ancestor u t.

(** The ancestors of a task, computed through at most [n] dependencies. *)
Fixpoint ancestors_upto (n : nat) (t : Task) : list Task :=
  match n with
  | O => []
  | S k => flat_map (fun u => u :: ancestors_upto k u) (upstream t)
  end.

Definition ancestors (t : Task) : list Task :=
  ancestors_upto (length all_tasks) t.

Definition inb (t : Task) (l : list Task) : bool := existsb (Task_beq t) l.

(** ** The scheduler

    The tasks are declared without [trigger_rule]: a task instance runs
    once all its direct upstream tasks have succeeded.  A running task
    succeeds, fails for good, or fails and is up for a retry. *)
Inductive Status : Type := Waiting | Running | Succeeded | Failed.

Definition State : Type := Task -> Status.

Definition initial : State := fun _ => Waiting.

Definition update (s : State) (t : Task) (st : Status) : State :=
  fun x => if Task_beq x t then st else s x.

Inductive step : State -> State -> Prop :=
| step_start : forall s t,
    s t = Waiting ->
    (forall u, In u (upstream t) -> s u = Succeeded) ->
    step s (update s t Running)
| step_succeed : forall s t, s t = Running -> step s (update s t Succeeded)
| step_fail : forall s t, s t = Running -> step s (update s t Failed)
| step_retry : forall s t, s t = Running -> step s (update s t Waiting).

Inductive reachable : State -> Prop :=
| reachable_initial : reachable initial
| reachable_step : forall s s', reachable s -> step s s' -> reachable s'.

(** Every task that has left [Waiting] has all its direct upstream tasks
    succeeded. *)
Definition ordered (s : State) : Prop :=
  forall t u, s t <> Waiting -> In u (upstream t) -> s u = Succeeded.

(** Runs of the examples: start and success of a task. *)
Definition run (s : State) (t : Task) : State := update s t Running.
Definition finish (s : State) (t : Task) : State := update s t Succeeded.

Definition references_done : State :=
  finish (run (finish (run initial check_db_connection) check_db_connection)
              load_references) load_references.

(** Any number of steps of the scheduler. *)
Inductive steps : State -> State -> Prop :=
| steps_refl : forall s, steps s s
| steps_step : forall s s1 s2, step s s1 -> steps s1 s2 -> steps s s2.

(** The order in which [GoszakupETL.run_full_etl] calls the loads. *)
Definition etl_order : list Task :=
  [load_references; load_subjects; load_rnu; load_plans; load_announcements;
   load_applications; load_lots; load_contracts; load_acts; load_payments].

(** Running the tasks of a list one at a time, each to its success. *)
Definition run_in_order (l : list Task) (s : State) : State :=
  fold_left (fun s t => finish (run s t) t) l s.

(** Each task of the list has its upstream tasks succeeded when its turn
    comes. *)
Fixpoint schedulable (l : list Task) (s : State) : bool :=
  match l with
  | [] => true
  | t :: rest =>
      match s t with
      | Waiting =>
          forallb (fun u => match s u with Succeeded => true | _ => false end)
                  (upstream t)
          && schedulable rest (finish (run s t) t)
      | _ => false
      end
  end.

(** The whole DAG run in the order of [run_full_etl]. *)
Definition sequential_run : list Task :=
  (check_db_connection :: etl_order ++ [print_statistics])%list.

(** The loads of the chain from plans to payments, without applications,
    run to success after the references. *)
Definition statistics_without_applications : State :=
  finish (run (run_in_order
                 [load_subjects; load_rnu; load_plans; load_announcements;
                  load_lots; load_contracts; load_acts; load_payments]
                 references_done)
              print_statistics) print_statistics.

(** The plans have failed for good after the references. *)
Definition plans_failed : State :=
  update (run references_done load_plans) load_plans Failed.

End Dag.

(* ================================================================== *)
(** * Properties of the client *)
(* ================================================================== *)

Section ClientFacts.
Import Py Client.
Open Scope py_scope.

Variable c : GoszakupAPIClient.
Variable srv : Server.

Lemma try_once_request_for method url params json_data :
  try_once c srv method url params json_data =
  match request_for c method url params json_data with
  | Some r => reply <- session_send srv r ;; after_reply c reply
  | None => ret (Finished JNull)
  end.
Proof.
  unfold try_once, request_for.
  destruct (upper_is method "GET"); [reflexivity|].
  destruct (upper_is method "POST"); reflexivity.
Qed.










Lemma truthy_not_empty_str np : truthy np = true -> is_empty_str np = false.
Proof.
  destruct np; simpl; try reflexivity.
  destruct (s =? "")%string; [discriminate|reflexivity].
Qed.

Lemma truthy_obj kv : kv <> [] -> truthy (JObj kv) = true.
Proof. destruct kv; [congruence|reflexivity]. Qed.

(** The loop over pages that are followed by another one. *)
Lemma paginate_loop_followed endpoint params next w pages next' w' :
  followed c srv endpoint params next w pages next' w' ->
  forall fuel acc,
    paginate_loop c srv (length pages + fuel) endpoint params acc next w =
    paginate_loop c srv fuel endpoint params (acc ++ concat pages)%list next' w'.
Proof.
  induction 1 as [next w|next w kv w1 items np pages next' w' Hreq Hkv Hitems Hnp Ht _ IH];
    intros fuel acc.
  - simpl. rewrite app_nil_r. reflexivity.
  - cbn [length Nat.add paginate_loop]. unfold bind at 1. rewrite Hreq.
    rewrite (truthy_obj kv Hkv). cbn [negb].
    unfold py_get, bind, ret. rewrite Hitems. cbn [py_extend]. unfold ret.
    rewrite Hnp, Ht, (truthy_not_empty_str _ Ht). cbn [negb orb].
    rewrite IH. cbn [concat]. rewrite app_assoc. reflexivity.
Qed.

(** The iteration that ends the loop with a last page. *)
Lemma paginate_loop_last endpoint params next w kv w1 items fuel acc :
  page_request c srv endpoint params next w = (Returns (JObj kv), w1) ->
  kv <> [] ->
  dict_get kv "items" (JArr []) = JArr items ->
  truthy (dict_get kv "next_page" JNull) = false ->
  paginate_loop c srv (S fuel) endpoint params acc next w =
  (Returns (acc ++ items)%list, w1).
Proof.
  intros Hreq Hkv Hitems Hnp.
  cbn [paginate_loop]. unfold bind at 1. rewrite Hreq.
  rewrite (truthy_obj kv Hkv). cbn [negb].
  unfold py_get, bind, ret. rewrite Hitems. cbn [py_extend]. unfold ret.
  rewrite Hnp. reflexivity.
Qed.

(** The iteration that ends the loop on a falsy response. *)
Lemma paginate_loop_stop endpoint params next w response w1 fuel acc :
  page_request c srv endpoint params next w = (Returns response, w1) ->
  truthy response = false ->
  paginate_loop c srv (S fuel) endpoint params acc next w = (Returns acc, w1).
Proof.
  intros Hreq Hf.
  cbn [paginate_loop]. unfold bind at 1. rewrite Hreq, Hf. reflexivity.
Qed.







Lemma backoff_waits_length a n : length (backoff_waits a n) = n.
Proof.
  revert a. induction n as [|n IH]; intros a; simpl; [reflexivity|].
  rewrite length_app, IH. simpl. lia.
Qed.

(** In the order they are taken, the [i]-th wait (from 0) is [2 ^ (a + i)]. *)
Lemma backoff_waits_nth n : forall a i,
  (i < n)%nat ->
  nth_error (rev (backoff_waits a n)) i = Some (2 ^ (a + Z.of_nat i)).
Proof.
  induction n as [|n IH]; intros a i Hi; [lia|].
  cbn [backoff_waits]. rewrite rev_app_distr. cbn [rev app].
  destruct i as [|i].
  - simpl. rewrite Z.add_0_r. reflexivity.
  - cbn [nth_error]. rewrite IH by lia. f_equal. f_equal. lia.
Qed.

Lemma backoff_waits_in n : forall a i,
  (i < n)%nat -> In (2 ^ (a + Z.of_nat i)) (backoff_waits a n).
Proof.
  intros a i Hi. apply in_rev.
  eapply nth_error_In. apply backoff_waits_nth. exact Hi.
Qed.













End ClientFacts.

(* ================================================================== *)
(** * The fetcher against its specification *)
(* ================================================================== *)

Section ClientClaims.
Import Py Client Scenario.
Open Scope py_scope.
















(** C7.  When the pages [pages] are obtained one after the other and the
    page after them, with the items [last], has no [next_page] (absent,
    null or empty), [_paginate] returns exactly the concatenation of the
    item lists of these pages, in the order of the pages and of the items
    within each page. *)
Theorem pages_are_concatenated
        (c : GoszakupAPIClient) (srv : Server) (endpoint : string)
        (params : json) (pages : list (list json)) (next : json)
        (w w1 w2 : World) (kv : list (string * json)) (last : list json)
        (fuel : nat) :
  followed c srv endpoint params JNull w pages next w1 ->
  page_request c srv endpoint params next w1 = (Returns (JObj kv), w2) ->
  kv <> [] ->
  dict_get kv "items" (JArr []) = JArr last ->
  truthy (dict_get kv "next_page" JNull) = false ->
  _paginate c srv (length pages + S fuel) endpoint params w =
  (Returns (concat (pages ++ [last])), w2).
Proof.
  intros Hfol Hreq Hkv Hitems Hnp. unfold _paginate.
  rewrite (paginate_loop_followed _ _ _ _ _ _ _ _ _ Hfol (S fuel) []).
  cbn [app]. rewrite concat_app. cbn [concat]. rewrite app_nil_r.
  eapply paginate_loop_last; eauto.
Qed.

Lemma three_pages_followed :
  followed client3 three_pages "/v3/subject" JNull
           JNull world0 [items_from 0 10; items_from 10 10] (JStr page3_url)
           {| sent := [get_url page2_url; get_url page1_url]; slept := [1; 1] |}.
Proof.
  eapply followed_cons;
    [reflexivity|discriminate|reflexivity|reflexivity|reflexivity|].
  eapply followed_cons;
    [reflexivity|discriminate|reflexivity|reflexivity|reflexivity|].
  apply followed_nil.
Defined.

Lemma pages_are_concatenated_witness :
  _paginate client3 three_pages 3 "/v3/subject" JNull world0 =
  (Returns (items_from 0 25),
   {| sent := [get_url page3_url; get_url page2_url; get_url page1_url];
      slept := [1; 1; 1] |})
  /\ length (items_from 0 25) = 25%nat.
Proof.
  split; [|reflexivity].
  exact (pages_are_concatenated client3 three_pages "/v3/subject" JNull
           [items_from 0 10; items_from 10 10] (JStr page3_url) world0
           {| sent := [get_url page2_url; get_url page1_url]; slept := [1; 1] |}
           {| sent := [get_url page3_url; get_url page2_url; get_url page1_url];
              slept := [1; 1; 1] |}
           [("items", JArr (items_from 20 5)); ("next_page", JNull)]
           (items_from 20 5) 0
           three_pages_followed eq_refl ltac:(discriminate) eq_refl eq_refl).
Defined.




End ClientClaims.

(* ================================================================== *)
(** * Properties of the database object *)
(* ================================================================== *)

Section DBFacts.
Import Py DB.
Open Scope py_scope.

Variable env : Env.

Lemma lookup_store name t ts : lookup name (store name t ts) = Some t.
Proof.
  induction ts as [|[n x] ts IH]; simpl.
  - now rewrite String.eqb_refl.
  - destruct (name =? n)%string eqn:E; simpl; rewrite E; [reflexivity|exact IH].
Qed.

(** A statement writes to the transaction only. *)
Lemma cursor_execute_committed q s r s' :
  cursor_execute env q s = (r, s') -> committed s' = committed s.
Proof.
  unfold cursor_execute.
  destruct (fault env (length (calls s))); [intros [= _ <-]; reflexivity|].
  destruct (execute q (pending s)); intros [= _ <-]; reflexivity.
Qed.

Lemma execute_pages_committed table cols how pages :
  forall s r s',
    execute_pages env table cols how pages s = (r, s') ->
    committed s' = committed s.
Proof.
  induction pages as [|page rest IH]; intros s r s' H.
  - simpl in H. injection H as _ <-. reflexivity.
  - cbn [execute_pages] in H. unfold bind in H.
    destruct (cursor_execute env (mkInsert table cols page how) s)
      as [[[]|e|] s1] eqn:E.
    + apply IH in H. rewrite H. eapply cursor_execute_committed; eauto.
    + injection H as _ <-. eapply cursor_execute_committed; eauto.
    + injection H as _ <-. eapply cursor_execute_committed; eauto.
Qed.

(** The body of the [try]: when it raises, nothing has been committed. *)
Lemma write_body_raises table cols how values s e s1 :
  (execute_values env table cols how values ;;; commit env ;;; ret JNull) s
  = (Raises e, s1) ->
  committed s1 = committed s.
Proof.
  unfold bind, execute_values.
  destruct (execute_pages env table cols how (pages_of 100 values) s)
    as [[[]|e0|] s0] eqn:E.
  - unfold commit. destruct (fault env (length (calls s0))).
    + intros [= _ <-]. cbn [committed].
      eapply execute_pages_committed; eauto.
    + discriminate.
  - intros [= _ <-]. eapply execute_pages_committed; eauto.
  - discriminate.
Qed.

(** [try: body / except: rollback; raise]: when the call raises, the
    committed tables are those before it and no write is left pending. *)
Lemma guarded_write_raises table cols how values s e s' :
  try_except
    (execute_values env table cols how values ;;; commit env ;;; ret JNull)
    (fun e => rollback ;;; raise e) s
  = (Raises e, s') ->
  committed s' = committed s /\ pending s' = committed s.
Proof.
  unfold try_except.
  destruct ((execute_values env table cols how values ;;; commit env ;;; ret JNull) s)
    as [[v|e0|] s1] eqn:E.
  - discriminate.
  - unfold bind, rollback, raise. intros [= _ <-]. cbn [committed pending].
    apply write_body_raises in E. now rewrite E.
  - discriminate.
Qed.

(** When the call returns, the transaction has been committed. *)
Lemma guarded_write_returns table cols how values s v s' :
  try_except
    (execute_values env table cols how values ;;; commit env ;;; ret JNull)
    (fun e => rollback ;;; raise e) s
  = (Returns v, s') ->
  exists s1,
    execute_pages env table cols how (pages_of 100 values) s = (Returns tt, s1)
    /\ committed s' = pending s1 /\ pending s' = pending s1 /\ v = JNull.
Proof.
  unfold try_except, bind, execute_values.
  destruct (execute_pages env table cols how (pages_of 100 values) s)
    as [[[]|e0|] s0] eqn:E.
  - unfold commit. destruct (fault env (length (calls s0))).
    + unfold rollback, raise. discriminate.
    + unfold ret. intros [= <- <-]. exists s0. cbn. auto.
  - unfold rollback, raise. discriminate.
  - discriminate.
Qed.






(** The pages of [execute_values] are the values, in their order. *)
Lemma concat_pages_from {A} page_size : forall (l : list A) room page,
  concat (pages_from page_size room page l) = (rev page ++ l)%list.
Proof.
  induction l as [|x rest IH]; intros room page.
  - simpl. destruct page; simpl; [reflexivity|].
    now rewrite !app_nil_r.
  - cbn [pages_from].
    destruct room as [|[|r]].
    + cbn [concat]. rewrite IH. cbn [rev app].
      rewrite <- app_assoc. reflexivity.
    + cbn [concat]. rewrite IH. cbn [rev app].
      rewrite <- app_assoc. reflexivity.
    + rewrite IH. cbn [rev]. rewrite <- app_assoc. reflexivity.
Qed.

Lemma concat_pages_of {A} page_size (l : list A) :
  concat (pages_of page_size l) = l.
Proof. unfold pages_of. now rewrite concat_pages_from. Qed.














End DBFacts.

(* ================================================================== *)
(** * The persistence engine against its specification *)
(* ================================================================== *)

Section DBClaims.
Import Py DB DBScenario.
Open Scope py_scope.

(** C4.  For every table and every batch, in either mode: when the call
    raises, whatever the statement or the commit that failed, the committed
    content of every table is what it was before the call, and no row of
    the batch is left in the transaction. *)
Theorem failed_batch_is_rolled_back
        (env : Env) (table : string) (data : list Row)
        (conflict_columns : list string) (s s' : Conn) (e : exn) :
  clean s ->
  insert_jsonb_batch env table data s = (Raises e, s')
  \/ upsert_batch env table data conflict_columns s = (Raises e, s') ->
  data <> []
  /\ committed s' = committed s
  /\ pending s' = pending s
  /\ clean s'.
Proof.
  intros Hclean [H|H].
  - destruct data as [|first rest]; [discriminate|].
    apply guarded_write_raises in H as [Hc Hp].
    repeat split; [discriminate|assumption|congruence|].
    unfold clean. congruence.
  - destruct data as [|first rest]; [discriminate|].
    apply guarded_write_raises in H as [Hc Hp].
    repeat split; [discriminate|assumption|congruence|].
    unfold clean. congruence.
Qed.

Lemma failed_batch_is_rolled_back_witness :
  let r := insert_jsonb_batch second_call_fails "subjects" batch150 conn0 in
  fst r = Raises DatabaseError
  /\ length (calls (snd r)) = 3%nat
  /\ (batch150 <> []
      /\ committed (snd r) = committed conn0
      /\ pending (snd r) = pending conn0
      /\ clean (snd r)).
Proof.
  split; [vm_compute; reflexivity|]. split; [vm_compute; reflexivity|].
  apply (failed_batch_is_rolled_back second_call_fails "subjects" batch150 []
           conn0 (snd (insert_jsonb_batch second_call_fails "subjects"
                                          batch150 conn0))
           DatabaseError).
  - reflexivity.
  - left. vm_compute. reflexivity.
Defined.

(** C6 (amended).  In both modes a call with an empty batch is a no-op: it
    returns at once, makes no call over the connection and leaves the
    connection as it was.  What it returns is [None]: the methods return
    no row count, for an empty batch or otherwise. *)
Theorem empty_batch_is_noop
        (env : Env) (table : string) (conflict_columns : list string)
        (s : Conn) :
  insert_jsonb_batch env table [] s = (Returns JNull, s)
  /\ upsert_batch env table [] conflict_columns s = (Returns JNull, s).
Proof. split; reflexivity. Qed.

(** C6 as stated fails in what is returned: the call with an empty batch
    returns [None], not the number 0. *)
Lemma empty_batch_returns_zero_counterexample :
  fst (insert_jsonb_batch calm "subjects" [] conn0) = Returns JNull
  /\ fst (upsert_batch calm "contracts" [] ["id"] conn0) = Returns JNull
  /\ fst (insert_jsonb_batch calm "subjects" [] conn0) <> Returns (JNum 0).
Proof. repeat split. discriminate. Qed.




End DBClaims.

(* ================================================================== *)
(** * The order of the tasks *)
(* ================================================================== *)

Section DagFacts.
Import Dag.

Lemma Task_beq_eq x y : Task_beq x y = true <-> x = y.
Proof. destruct x, y; simpl; split; intros H; congruence. Qed.

Lemma Task_beq_refl x : Task_beq x x = true.
Proof. now apply Task_beq_eq. Qed.

Lemma inb_In t l : inb t l = true <-> In t l.
Proof.
  unfold inb. rewrite existsb_exists. split.
  - intros (x & Hx & E). apply Task_beq_eq in E. now subst.
  - intros H. exists t. split; [assumption|apply Task_beq_refl].
Qed.

Lemma upstream_in_ancestors t u :
  In u (upstream t) -> In u (ancestors t).
Proof.
  rewrite <- !inb_In. destruct t, u; vm_compute; congruence.
Qed.

Lemma ancestors_closed t v u :
  In v (upstream t) -> In u (ancestors v) -> In u (ancestors t).
Proof.
  rewrite <- !inb_In.
  destruct t, v; vm_compute; try congruence; destruct u; vm_compute; congruence.
Qed.

(** The computed ancestors are all the ancestors. *)
Lemma ancestor_in_ancestors u t : ancestor u t -> In u (ancestors t).
Proof.
  induction 1 as [u t H|u v t _ IH H].
  - now apply upstream_in_ancestors.
  - eapply ancestors_closed; eauto.
Qed.

Lemma update_eq s t st : update s t st t = st.
Proof. unfold update. now rewrite Task_beq_refl. Qed.

Lemma update_neq s t st x : x <> t -> update s t st x = s x.
Proof.
  intros H. unfold update. destruct (Task_beq x t) eqn:E; [|reflexivity].
  apply Task_beq_eq in E. contradiction.
Qed.

Lemma step_ordered s s' : ordered s -> step s s' -> ordered s'.
Proof.
  intros Hord Hstep.
  destruct Hstep as [s t0 Hw Hup|s t0 Hr|s t0 Hr|s t0 Hr]; intros t u Ht Hu.
  - destruct (Task_eq_dec t t0) as [->|Hne].
    + rewrite update_neq; [now apply Hup|].
      intros ->. rewrite (Hup _ Hu) in Hw. discriminate.
    + rewrite update_neq in Ht by assumption.
      rewrite update_neq; [now apply (Hord t)|].
      intros ->. rewrite (Hord t t0 Ht Hu) in Hw. discriminate.
  - assert (Hst : s t <> Waiting).
    { destruct (Task_eq_dec t t0) as [->|Hne]; [congruence|].
      now rewrite update_neq in Ht. }
    destruct (Task_eq_dec u t0) as [->|Hne].
    + apply update_eq.
    + rewrite update_neq by assumption. now apply (Hord t).
  - assert (Hst : s t <> Waiting).
    { destruct (Task_eq_dec t t0) as [->|Hne]; [congruence|].
      now rewrite update_neq in Ht. }
    rewrite update_neq; [now apply (Hord t)|].
    intros ->. rewrite (Hord t t0 Hst Hu) in Hr. discriminate.
  - assert (Hne : t <> t0).
    { intros ->. rewrite update_eq in Ht. congruence. }
    rewrite update_neq in Ht by assumption.
    rewrite update_neq; [now apply (Hord t)|].
    intros ->. rewrite (Hord t t0 Ht Hu) in Hr. discriminate.
Qed.

Lemma reachable_ordered s : reachable s -> ordered s.
Proof.
  induction 1 as [|s s' _ IH Hstep].
  - intros t u Ht. exfalso. apply Ht. reflexivity.
  - eapply step_ordered; eauto.
Qed.

Lemma reachable_ancestors_succeeded s :
  reachable s ->
  forall u t, ancestor u t -> s t <> Waiting -> s u = Succeeded.
Proof.
  intros Hs. pose proof (reachable_ordered s Hs) as Hord.
  induction 1 as [u t H|u v t _ IH H]; intros Ht.
  - now apply (Hord t).
  - apply IH. rewrite (Hord t v Ht H). discriminate.
Qed.

(** Starting a task whose upstream tasks have succeeded, and letting a
    running task succeed. *)
Lemma reachable_run s t :
  reachable s -> s t = Waiting ->
  forallb (fun u => match s u with Succeeded => true | _ => false end)
          (upstream t) = true ->
  reachable (run s t).
Proof.
  intros Hs Hw Hup. eapply reachable_step; [exact Hs|].
  apply step_start; [assumption|].
  intros u Hu. rewrite forallb_forall in Hup. specialize (Hup u Hu).
  destruct (s u); congruence.
Qed.

Lemma reachable_finish s t :
  reachable s -> s t = Running -> reachable (finish s t).
Proof.
  intros Hs Hr. eapply reachable_step; [exact Hs|]. now apply step_succeed.
Qed.

Lemma reachable_references_done : reachable references_done.
Proof.
  unfold references_done.
  apply reachable_finish; [|reflexivity].
  apply reachable_run; [|reflexivity|reflexivity].
  apply reachable_finish; [|reflexivity].
  apply reachable_run; [|reflexivity|reflexivity].
  apply reachable_initial.
Qed.

End DagFacts.

Section DagClaims.
Import Dag.

(** C9.  In every state the scheduler can reach, a task that has started
    has all its ancestors succeeded.  The upstream tasks are those of the
    specification: subjects, rnu and plans run after references;
    announcements after plans; applications and lots after announcements;
    contracts after lots; acts and payments after contracts.  Subjects and
    rnu are not ordered: neither is an ancestor of the other, and each can
    be running while the other waits, or both at once. *)
Theorem ancestors_complete_first :
  (forall s t u,
      reachable s -> s t <> Waiting -> ancestor u t -> s u = Succeeded)
  /\ (upstream load_subjects = [load_references]
      /\ upstream load_rnu = [load_references]
      /\ upstream load_plans = [load_references]
      /\ upstream load_announcements = [load_plans]
      /\ upstream load_applications = [load_announcements]
      /\ upstream load_lots = [load_announcements]
      /\ upstream load_contracts = [load_lots]
      /\ upstream load_acts = [load_contracts]
      /\ upstream load_payments = [load_contracts])
  /\ (~ ancestor load_subjects load_rnu /\ ~ ancestor load_rnu load_subjects)
  /\ (exists s, reachable s
                /\ s load_subjects = Running /\ s load_rnu = Waiting)
  /\ (exists s, reachable s
                /\ s load_rnu = Running /\ s load_subjects = Waiting)
  /\ (exists s, reachable s
                /\ s load_subjects = Running /\ s load_rnu = Running).
Proof.
  split; [|split; [|split; [|split; [|split]]]].
  - intros s t u Hs Ht Hu. eapply reachable_ancestors_succeeded; eauto.
  - repeat split; reflexivity.
  - split; intros H; apply ancestor_in_ancestors in H;
      apply inb_In in H; vm_compute in H; discriminate.
  - exists (run references_done load_subjects). repeat split.
    apply reachable_run; [apply reachable_references_done| |]; reflexivity.
  - exists (run references_done load_rnu). repeat split.
    apply reachable_run; [apply reachable_references_done| |]; reflexivity.
  - exists (run (run references_done load_subjects) load_rnu). repeat split.
    apply reachable_run; [|reflexivity|reflexivity].
    apply reachable_run; [apply reachable_references_done| |]; reflexivity.
Qed.

Lemma ancestors_complete_first_witness :
  run (run references_done load_plans) load_subjects load_references = Succeeded
  /\ run (run references_done load_plans) load_subjects check_db_connection
     = Succeeded.
Proof.
  assert (Hs : reachable (run (run references_done load_plans) load_subjects)).
  { apply reachable_run; [|reflexivity|reflexivity].
    apply reachable_run; [apply reachable_references_done| |]; reflexivity. }
  split.
  - apply (proj1 ancestors_complete_first _ load_plans load_references Hs).
    + discriminate.
    + apply ancestor_direct. simpl. now left.
  - apply (proj1 ancestors_complete_first _ load_plans check_db_connection Hs).
    + discriminate.
    + apply (ancestor_step check_db_connection load_references load_plans);
        [apply ancestor_direct|]; simpl; now left.
Defined.

End DagClaims.

(* ================================================================== *)
(** * More about the client *)
(* ================================================================== *)

Section ClientMore.
Import Py Client Scenario.
Open Scope py_scope.



(** X2.  A method whose upper case is neither GET nor POST is refused
    without any traffic: [_make_request] returns [None] and neither sends a
    request nor sleeps, whatever the number of attempts. *)
Theorem unsupported_method_sends_nothing
        (c : GoszakupAPIClient) (srv : Server) (method endpoint : string)
        (params json_data : json) (w : World) :
  upper_is method "GET" = false -> upper_is method "POST" = false ->
  _make_request c srv method endpoint params json_data w = (Returns JNull, w).
Proof.
  intros Hg Hp. unfold _make_request.
  destruct (Z.to_nat (retry_count c)) as [|r]; [reflexivity|].
  cbn [attempt_loop]. unfold bind at 1. unfold try_once.
  rewrite Hg, Hp. reflexivity.
Qed.

Lemma unsupported_method_sends_nothing_witness :
  _make_request client3 three_pages "put" "/v3/subject" JNull JNull world0
  = (Returns JNull, world0).
Proof.
  exact (unsupported_method_sends_nothing client3 three_pages "put"
           "/v3/subject" JNull JNull world0 eq_refl eq_refl).
Defined.

(** X3.  A client built with [retry_count <= 0] never sends anything:
    [_make_request] returns [None] at once and a paginated fetch returns
    the empty list, on every server. *)
Theorem no_attempt_no_request
        (c : GoszakupAPIClient) (srv : Server) (method endpoint : string)
        (params json_data : json) (fuel : nat) (w : World) :
  retry_count c <= 0 ->
  _make_request c srv method endpoint params json_data w = (Returns JNull, w)
  /\ _paginate c srv (S fuel) endpoint params w = (Returns [], w).
Proof.
  intros Hrc.
  assert (Hmr : forall m e p j w0,
             _make_request c srv m e p j w0 = (Returns JNull, w0)).
  { intros. unfold _make_request.
    replace (Z.to_nat (retry_count c)) with 0%nat by lia. reflexivity. }
  split; [apply Hmr|].
  unfold _paginate.
  eapply paginate_loop_stop with (response := JNull); [|reflexivity].
  unfold page_request. cbn [truthy]. apply Hmr.
Qed.

Lemma no_attempt_no_request_witness :
  _make_request client_no_attempt three_pages "GET" "/v3/subject" JNull JNull
                world0 = (Returns JNull, world0)
  /\ _paginate client_no_attempt three_pages 1 "/v3/subject" JNull world0
     = (Returns [], world0).
Proof.
  exact (no_attempt_no_request client_no_attempt three_pages "GET"
           "/v3/subject" JNull JNull 0 world0 ltac:(simpl; lia)).
Defined.

Lemma sleep_cases d w :
  (exists e, sleep d w = (Raises e, w))
  \/ sleep d w = (Returns tt, {| sent := sent w; slept := d :: slept w |}).
Proof.
  unfold sleep.
  destruct ((d <? - sleep_max) || (sleep_max <? d)); [left; eauto|].
  destruct (d <? 0); [left; eauto|now right].
Qed.

Lemma after_reply_sent c reply w :
  sent (snd (after_reply c reply w)) = sent w.
Proof.
  destruct reply as [|status body]; simpl; [reflexivity|].
  destruct (is_http_error status); [reflexivity|].
  unfold bind. destruct (sleep_cases (delay c) w) as [[e ->] | ->]; reflexivity.
Qed.

(** Whatever happens, the loop of attempts sends the one request of the
    call, at most once per attempt left. *)
Lemma attempt_loop_sent c srv method url params json_data req :
  request_for c method url params json_data = Some req ->
  forall remaining attempt w,
  exists k,
    (k <= remaining)%nat
    /\ sent (snd (attempt_loop c srv method url params json_data
                               remaining attempt w))
       = (repeat req k ++ sent w)%list.
Proof.
  intros Hreq. induction remaining as [|r IH]; intros attempt w.
  - exists 0%nat. split; [lia|reflexivity].
  - cbn [attempt_loop]. unfold bind at 1.
    rewrite try_once_request_for, Hreq.
    unfold bind at 1. unfold session_send at 1.
    set (w1 := {| sent := req :: sent w; slept := slept w |}).
    pose proof (after_reply_sent c (srv (length (sent w)) req) w1) as Hs.
    destruct (after_reply c (srv (length (sent w)) req) w1)
      as [[[v|]|e|] w2]; cbn [snd] in Hs.
    + exists 1%nat. split; [lia|]. exact Hs.
    + destruct (attempt <? retry_count c - 1).
      * unfold bind at 1.
        destruct (sleep_cases (2 ^ attempt) w2) as [[e' ->] | ->].
        -- exists 1%nat. split; [lia|]. exact Hs.
        -- destruct (IH (attempt + 1)
                        {| sent := sent w2; slept := 2 ^ attempt :: slept w2 |})
             as (k & Hk & E).
           exists (S k). split; [lia|].
           rewrite E. cbn [sent]. rewrite Hs. unfold w1. cbn [sent].
           change (repeat req (S k)) with (req :: repeat req k).
           rewrite (repeat_cons k req), <- app_assoc. reflexivity.
      * exists 1%nat. split; [lia|]. exact Hs.
    + exists 1%nat. split; [lia|]. exact Hs.
    + exists 1%nat. split; [lia|]. exact Hs.
Qed.



(** X5.  With a negative [delay] a request that is answered without an
    HTTP error does not return its answer: the pause after the answer
    raises, [ValueError] for a delay down to [- sleep_max] seconds and
    [OverflowError] below, which the handler of the retry loop does not
    catch, and a paginated fetch raises on its first page. *)
Theorem negative_delay_raises
        (c : GoszakupAPIClient) (srv : Server) (endpoint : string)
        (params : json) (status : Z) (body : json) (fuel : nat) (w : World) :
  delay c < 0 ->
  1 <= retry_count c ->
  srv (length (sent w)) (first_request c endpoint params)
  = HttpReply status body ->
  is_http_error status = false ->
  let e := if delay c <? - sleep_max then OverflowError else ValueError in
  _make_request c srv "GET" endpoint params JNull w
  = (Raises e,
     {| sent := first_request c endpoint params :: sent w; slept := slept w |})
  /\ _paginate c srv (S fuel) endpoint params w
     = (Raises e,
        {| sent := first_request c endpoint params :: sent w;
           slept := slept w |}).
Proof.
  intros Hd Hrc Hrep Hst e.
  assert (Hmr : _make_request c srv "GET" endpoint params JNull w
                = (Raises e,
                   {| sent := first_request c endpoint params :: sent w;
                      slept := slept w |})).
  { unfold _make_request.
    destruct (Z.to_nat (retry_count c)) as [|r] eqn:Er; [lia|].
    cbn [attempt_loop]. unfold bind at 1.
    rewrite try_once_request_for.
    change (request_for c "GET" (BASE_URL ++ endpoint) params JNull)
      with (Some (first_request c endpoint params)).
    unfold bind at 1. unfold session_send at 1. rewrite Hrep.
    unfold after_reply. rewrite Hst. unfold bind, sleep. cbn [sent slept].
    assert (Hhigh : (sleep_max <? delay c) = false)
      by (apply Z.ltb_ge; unfold sleep_max; lia).
    rewrite Hhigh, orb_false_r. subst e.
    destruct (delay c <? - sleep_max); [reflexivity|].
    apply Z.ltb_lt in Hd. rewrite Hd. reflexivity. }
  split; [exact Hmr|].
  unfold _paginate. cbn [paginate_loop]. unfold bind at 1.
  unfold page_request. cbn [truthy]. rewrite Hmr. reflexivity.
Qed.

Lemma negative_delay_raises_witness :
  _make_request client_negative_delay one_page "GET" "/v3/subject" JNull JNull
                world0
  = (Raises ValueError, {| sent := [get_url page1_url]; slept := [] |})
  /\ _paginate client_negative_delay one_page 1 "/v3/subject" JNull world0
     = (Raises ValueError, {| sent := [get_url page1_url]; slept := [] |}).
Proof.
  exact (negative_delay_raises client_negative_delay one_page "/v3/subject"
           JNull 200 (envelope [item 1; item 2] JNull) 0 world0
           ltac:(simpl; lia) ltac:(simpl; lia) eq_refl eq_refl).
Defined.

Lemma Forall_bare_get_repeat c url k :
  Forall bare_get
         (repeat (mkRequest "GET" url JNull JNull (session_authorization c)) k).
Proof.
  apply Forall_forall. intros r Hr. apply repeat_spec in Hr. subst r.
  repeat split.
Qed.

(** The requests of one iteration: those of a following page carry no
    parameters, those of the first page are the first request. *)
Lemma page_request_sent c srv endpoint params next w :
  exists k reqs,
    sent (snd (page_request c srv endpoint params next w)) = (reqs ++ sent w)%list
    /\ (k <= Z.to_nat (retry_count c))%nat
    /\ (truthy next = true -> Forall bare_get reqs)
    /\ (truthy next = false ->
        reqs = repeat (first_request c endpoint params) k).
Proof.
  unfold page_request. destruct (truthy next) eqn:Ht.
  - destruct next as [| | |s| |];
      try (exists 0%nat, []; repeat split;
           [lia|intros; constructor]).
    cbn [py_replace]. unfold bind, ret.
    destruct (attempt_loop_sent c srv "GET"
                (BASE_URL ++ str_remove s BASE_URL) JNull JNull
                (mkRequest "GET" (BASE_URL ++ str_remove s BASE_URL) JNull JNull
                           (session_authorization c))
                eq_refl (Z.to_nat (retry_count c)) 0 w) as (k & Hk & E).
    exists k, (repeat (mkRequest "GET" (BASE_URL ++ str_remove s BASE_URL)
                                 JNull JNull (session_authorization c)) k).
    repeat split; [exact E|exact Hk| |intros H; congruence].
    intros _. apply Forall_bare_get_repeat.
  - destruct (attempt_loop_sent c srv "GET" (BASE_URL ++ endpoint) params JNull
                (first_request c endpoint params) eq_refl
                (Z.to_nat (retry_count c)) 0 w) as (k & Hk & E).
    exists k, (repeat (first_request c endpoint params) k).
    repeat split; [exact E|exact Hk|discriminate].
Qed.

(** From a cursor on, the loop only sends requests without parameters. *)
Lemma paginate_loop_sent_bare c srv endpoint params :
  forall fuel acc next w,
    truthy next = true ->
    exists rest,
      sent (snd (paginate_loop c srv fuel endpoint params acc next w))
      = (rest ++ sent w)%list
      /\ Forall bare_get rest.
Proof.
  induction fuel as [|fuel IH]; intros acc next w Ht.
  - exists []. split; [reflexivity|constructor].
  - destruct (page_request_sent c srv endpoint params next w)
      as (k & reqs & Hs & _ & Hbare & _).
    specialize (Hbare Ht).
    cbn [paginate_loop]. unfold bind at 1.
    destruct (page_request c srv endpoint params next w)
      as [[response|e|] w1]; cbn [snd] in Hs;
      try (exists reqs; split; [exact Hs|exact Hbare]).
    destruct (truthy response); cbn [negb];
      [|exists reqs; split; [exact Hs|exact Hbare]].
    destruct response as [| | | | |kv];
      try (exists reqs; split; [exact Hs|exact Hbare]).
    unfold py_get, bind, ret.
    destruct (dict_get kv "items" (JArr [])) as [| | |x|l|o]; cbn [py_extend];
      unfold raise, ret;
      try (exists reqs; split; [exact Hs|exact Hbare]);
      (destruct (negb (truthy (dict_get kv "next_page" JNull))
                 || is_empty_str (dict_get kv "next_page" JNull)) eqn:Hc;
       [exists reqs; split; [exact Hs|exact Hbare]|]);
      (apply orb_false_elim in Hc as [Hc _];
       apply negb_false_iff in Hc;
       match goal with
       | |- context [paginate_loop c srv fuel endpoint params ?a ?n w1] =>
           destruct (IH a n w1 Hc) as (rest & E & Hrest)
       end;
       exists (rest ++ reqs)%list; split;
       [rewrite E, Hs, app_assoc; reflexivity
       |apply Forall_app; split; assumption]).
Qed.

(** X6.  In a paginated fetch the query parameters of the call go out with
    the request of the first page only (and its retries): every request
    after it is a GET without parameters, whatever the server answers and
    however the fetch ends. *)
Theorem params_only_with_first_page
        (c : GoszakupAPIClient) (srv : Server) (fuel : nat)
        (endpoint : string) (params : json) (w : World) :
  exists k rest,
    (k <= Z.to_nat (retry_count c))%nat
    /\ sent (snd (_paginate c srv fuel endpoint params w))
       = (rest ++ repeat (first_request c endpoint params) k ++ sent w)%list
    /\ Forall bare_get rest.
Proof.
  unfold _paginate. destruct fuel as [|fuel].
  - exists 0%nat, []. repeat split; [lia|constructor].
  - destruct (page_request_sent c srv endpoint params JNull w)
      as (k & reqs & Hs & Hk & _ & Hfirst).
    specialize (Hfirst eq_refl). subst reqs.
    assert (Hstop : exists rest,
               ([] ++ repeat (first_request c endpoint params) k ++ sent w)%list
               = (rest ++ repeat (first_request c endpoint params) k ++ sent w)%list
               /\ Forall bare_get rest)
      by (exists []; split; [reflexivity|constructor]).
    cbn [app] in Hstop.
    cbn [paginate_loop]. unfold bind at 1.
    destruct (page_request c srv endpoint params JNull w)
      as [[response|e|] w1]; cbn [snd] in Hs;
      try (exists k, []; repeat split; [exact Hk|exact Hs|constructor]).
    destruct (truthy response); cbn [negb];
      [|exists k, []; repeat split; [exact Hk|exact Hs|constructor]].
    destruct response as [| | | | |kv];
      try (exists k, []; repeat split; [exact Hk|exact Hs|constructor]).
    unfold py_get, bind, ret.
    destruct (dict_get kv "items" (JArr [])) as [| | |x|l|o]; cbn [py_extend];
      unfold raise, ret;
      try (exists k, []; repeat split; [exact Hk|exact Hs|constructor]);
      (destruct (negb (truthy (dict_get kv "next_page" JNull))
                 || is_empty_str (dict_get kv "next_page" JNull)) eqn:Hc;
       [exists k, []; repeat split; [exact Hk|exact Hs|constructor]|]);
      (apply orb_false_elim in Hc as [Hc _];
       apply negb_false_iff in Hc;
       match goal with
       | |- context [paginate_loop c srv fuel endpoint params ?a ?n w1] =>
           destruct (paginate_loop_sent_bare c srv endpoint params
                       fuel a n w1 Hc) as (rest & E & Hrest)
       end;
       exists k, rest; repeat split;
       [exact Hk|rewrite E, Hs; reflexivity|exact Hrest]).
Qed.

Lemma prefix_app old p : String.prefix old (old ++ p) = true.
Proof.
  induction old as [|a old IH]; simpl; [destruct p; reflexivity|].
  destruct (ascii_dec a a); [exact IH|congruence].
Qed.

Lemma remove_from_skip old : forall x p,
  remove_from old (String.length x) (x ++ p) = remove_from old 0 p.
Proof. induction x as [|a x IH]; intros p; simpl; [reflexivity|apply IH]. Qed.

Lemma str_remove_leading old p :
  old <> "" -> str_remove (old ++ p) old = str_remove p old.
Proof.
  intros Hne. unfold str_remove. destruct old as [|a old]; [congruence|].
  change ((String a old ++ p)%string) with (String a (old ++ p)).
  cbn [remove_from].
  change (String a (old ++ p)) with ((String a old ++ p)%string).
  rewrite prefix_app.
  replace (String.length (String a old) - 1)%nat with (String.length old)
    by (simpl; lia).
  apply remove_from_skip.
Qed.

(** X7.  A cursor given as an absolute URL under [BASE_URL] and the same
    cursor given as a path lead to the same request: the page request of
    [BASE_URL ++ path] is that of [path]. *)
Theorem absolute_and_relative_cursor
        (c : GoszakupAPIClient) (srv : Server) (endpoint : string)
        (params : json) (path : string) :
  path <> "" ->
  page_request c srv endpoint params (JStr (BASE_URL ++ path))
  = page_request c srv endpoint params (JStr path).
Proof.
  intros Hne. unfold page_request.
  assert (Ht : truthy (JStr path) = true).
  { simpl. apply String.eqb_neq in Hne. now rewrite Hne. }
  rewrite Ht. change (truthy (JStr (BASE_URL ++ path))) with true.
  cbn [py_replace]. rewrite str_remove_leading by discriminate.
  reflexivity.
Qed.

Lemma absolute_and_relative_cursor_witness :
  page_request client3 three_pages "/v3/subject" JNull
               (JStr (BASE_URL ++ "/v3/subject?page=2"))
  = page_request client3 three_pages "/v3/subject" JNull
                 (JStr "/v3/subject?page=2").
Proof.
  exact (absolute_and_relative_cursor client3 three_pages "/v3/subject" JNull
           "/v3/subject?page=2" ltac:(discriminate)).
Defined.



End ClientMore.

(* ================================================================== *)
(** * More about the database object *)
(* ================================================================== *)

Section DBMore.
Import Py DB DBScenario.
Open Scope py_scope.

Lemma lookup_store_other name other t ts :
  other <> name -> lookup other (store name t ts) = lookup other ts.
Proof.
  intros Hne. apply String.eqb_neq in Hne.
  induction ts as [|[n x] ts IH]; simpl.
  - now rewrite Hne.
  - destruct (name =? n)%string eqn:E; simpl.
    + apply String.eqb_eq in E. subst n. now rewrite Hne.
    + now rewrite IH.
Qed.


Lemma insert_do_nothing_app keys : forall a b old,
  insert_do_nothing keys old (a ++ b)
  = insert_do_nothing keys (insert_do_nothing keys old a) b.
Proof.
  induction a as [|r a IH]; intros b old; simpl; [reflexivity|].
  destruct (violates keys r old); apply IH.
Qed.


Lemma insert_do_nothing_no_keys : forall new old,
  insert_do_nothing [] old new = (old ++ new)%list.
Proof.
  induction new as [|r new IH]; intros old; simpl.
  - now rewrite app_nil_r.
  - rewrite IH, <- app_assoc. reflexivity.
Qed.

Lemma run_insert_do_nothing table cols page t rs :
  run_insert (mkInsert table cols page DoNothing) t = Some rs ->
  rs = insert_do_nothing (unique_keys t) (rows t)
                         (map (fun tuple => combine cols tuple) page).
Proof.
  unfold run_insert. cbn [columns tuples on_conflict].
  destruct cols as [|c cols']; [discriminate|].
  destruct (negb (no_dup (c :: cols'))); [discriminate|].
  destruct (negb (forallb (fun col => mem col (table_columns t)) (c :: cols')));
    [discriminate|].
  now intros [= <-].
Qed.

Lemma run_insert_do_nothing_ok table cols page t :
  cols <> [] -> no_dup cols = true ->
  forallb (fun col => mem col (table_columns t)) cols = true ->
  run_insert (mkInsert table cols page DoNothing) t
  = Some (insert_do_nothing (unique_keys t) (rows t)
                            (map (fun tuple => combine cols tuple) page)).
Proof.
  intros Hne Hnd Hin. unfold run_insert. cbn [columns tuples on_conflict].
  destruct cols as [|c cols']; [congruence|].
  rewrite Hnd, Hin. reflexivity.
Qed.

(** The statements of a batch that goes through, on the table and on the
    other tables. *)
Lemma execute_pages_nothing_rows env table cols : forall pages s s1 t,
  execute_pages env table cols DoNothing pages s = (Returns tt, s1) ->
  lookup table (pending s) = Some t ->
  exists t1,
    lookup table (pending s1) = Some t1
    /\ table_columns t1 = table_columns t
    /\ unique_keys t1 = unique_keys t
    /\ rows t1 = insert_do_nothing (unique_keys t) (rows t)
                   (map (fun tuple => combine cols tuple) (concat pages))
    /\ forall other, other <> table ->
                     lookup other (pending s1) = lookup other (pending s).
Proof.
  induction pages as [|page rest IH]; intros s s1 t H Ht.
  - simpl in H. injection H as <-. exists t. simpl. auto.
  - cbn [execute_pages] in H. unfold bind in H.
    destruct (cursor_execute env (mkInsert table cols page DoNothing) s)
      as [[[]|e|] s0] eqn:E; try discriminate.
    unfold cursor_execute in E.
    destruct (fault env (length (calls s))); [discriminate|].
    unfold execute in E. cbn [into] in E. rewrite Ht in E.
    destruct (run_insert (mkInsert table cols page DoNothing) t)
      as [rs|] eqn:Hrun; [|discriminate].
    injection E as <-.
    apply run_insert_do_nothing in Hrun.
    destruct (IH _ _ (mkTable (table_columns t) (unique_keys t) rs) H)
      as (t1 & Hl & Hc & Hu & Hr & Ho).
    { cbn [pending]. apply lookup_store. }
    exists t1. repeat split; try assumption.
    + rewrite Hr. cbn [rows unique_keys concat].
      rewrite map_app, insert_do_nothing_app. now rewrite Hrun.
    + intros other Hne. rewrite (Ho other Hne). cbn [pending].
      now apply lookup_store_other.
Qed.

(** Without faults, on a table that has the columns, the statements go
    through. *)
Lemma execute_pages_nothing_ok env table cols :
  faultless env -> cols <> [] -> no_dup cols = true ->
  forall pages s t,
    lookup table (pending s) = Some t ->
    forallb (fun col => mem col (table_columns t)) cols = true ->
    exists s1,
      execute_pages env table cols DoNothing pages s = (Returns tt, s1)
      /\ committed s1 = committed s.
Proof.
  intros Hf Hne Hnd. induction pages as [|page rest IH]; intros s t Ht Hin.
  - exists s. split; reflexivity.
  - cbn [execute_pages]. unfold bind, cursor_execute. rewrite Hf.
    unfold execute. cbn [into]. rewrite Ht.
    rewrite (run_insert_do_nothing_ok table cols page t Hne Hnd Hin).
    edestruct (IH (mkConn (committed s)
                          (store table
                             (mkTable (table_columns t) (unique_keys t)
                                (insert_do_nothing (unique_keys t) (rows t)
                                   (map (fun tuple => combine cols tuple) page)))
                             (pending s))
                          (Execute (mkInsert table cols page DoNothing) :: calls s)))
      as (s1 & E & Hc).
    + cbn [pending]. apply lookup_store.
    + exact Hin.
    + exists s1. split; [exact E|exact Hc].
Qed.

Lemma jsonb_values_rows env data :
  map (fun tuple => combine ["data"; "created_at"] tuple) (jsonb_values env data)
  = jsonb_rows env data.
Proof.
  unfold jsonb_values, jsonb_rows. rewrite map_map. apply map_ext.
  intros [i r]. reflexivity.
Qed.

(** The guarded write of a batch whose statements go through. *)
Lemma guarded_do_nothing_ok env table cols values s t :
  faultless env -> clean s ->
  lookup table (committed s) = Some t ->
  cols <> [] -> no_dup cols = true ->
  forallb (fun col => mem col (table_columns t)) cols = true ->
  exists s' t',
    try_except
      (execute_values env table cols DoNothing values ;;; commit env ;;; ret JNull)
      (fun e => rollback ;;; raise e) s
    = (Returns JNull, s')
    /\ clean s'
    /\ lookup table (committed s') = Some t'
    /\ table_columns t' = table_columns t
    /\ unique_keys t' = unique_keys t
    /\ rows t' = insert_do_nothing (unique_keys t) (rows t)
                   (map (fun tuple => combine cols tuple) values).
Proof.
  intros Hf Hclean Ht Hne Hnd Hin.
  unfold clean in Hclean. rewrite <- Hclean in Ht.
  destruct (execute_pages_nothing_ok env table cols Hf Hne Hnd
              (pages_of 100 values) s t Ht Hin) as (s1 & E & Hc).
  destruct (execute_pages_nothing_rows env table cols _ _ _ _ E Ht)
    as (t1 & Hl & Hcols & Hkeys & Hrows & _).
  exists (mkConn (pending s1) (pending s1) (Commit :: calls s1)), t1.
  repeat split; try assumption.
  - unfold try_except, bind, execute_values. rewrite E.
    unfold commit. rewrite Hf. reflexivity.
  - rewrite Hrows, concat_pages_of. reflexivity.
Qed.

(** The guarded write that returned. *)
Lemma guarded_do_nothing_returned env table cols values s v s' t :
  clean s ->
  lookup table (committed s) = Some t ->
  try_except
    (execute_values env table cols DoNothing values ;;; commit env ;;; ret JNull)
    (fun e => rollback ;;; raise e) s
  = (Returns v, s') ->
  exists t',
    lookup table (committed s') = Some t'
    /\ table_columns t' = table_columns t
    /\ unique_keys t' = unique_keys t
    /\ rows t' = insert_do_nothing (unique_keys t) (rows t)
                   (map (fun tuple => combine cols tuple) values)
    /\ (forall other, other <> table ->
                      lookup other (committed s') = lookup other (committed s))
    /\ clean s'.
Proof.
  intros Hclean Ht H.
  apply guarded_write_returns in H as (s1 & E & Hc & Hp & _).
  unfold clean in Hclean. rewrite <- Hclean in Ht.
  destruct (execute_pages_nothing_rows env table cols _ _ _ _ E Ht)
    as (t1 & Hl & Hcols & Hkeys & Hrows & Hother).
  exists t1. repeat split; try assumption.
  - now rewrite Hc.
  - rewrite Hrows, concat_pages_of. reflexivity.
  - intros other Hne. rewrite Hc, (Hother other Hne). now rewrite Hclean.
  - unfold clean. congruence.
Qed.

(** X9.  Without a unique constraint on the table and without a fault of
    the storage, [insert_jsonb_batch] returns and appends one row per
    record, in the order of the batch, whose [data] is the record and whose
    [created_at] is the time read for it; nothing recognises a record that
    is already there, so a record persisted again is there twice. *)
Theorem jsonb_batch_is_appended
        (env : Env) (table : string) (data : list Row) (s : Conn) (t : Table) :
  faultless env ->
  clean s ->
  lookup table (committed s) = Some t ->
  document_table t ->
  unique_keys t = [] ->
  exists s' t',
    insert_jsonb_batch env table data s = (Returns JNull, s')
    /\ lookup table (committed s') = Some t'
    /\ rows t' = (rows t ++ jsonb_rows env data)%list
    /\ clean s'.
Proof.
  intros Hf Hclean Ht [Hd Hc] Hk.
  destruct data as [|first rest].
  - exists s, t. repeat split; try assumption. now rewrite app_nil_r.
  - cbn [insert_jsonb_batch].
    destruct (guarded_do_nothing_ok env table ["data"; "created_at"]
                (jsonb_values env (first :: rest)) s t Hf Hclean Ht
                ltac:(discriminate) eq_refl) as (s' & t' & E & Hcl & Hl & _ & _ & Hr).
    { cbn [forallb]. now rewrite Hd, Hc. }
    exists s', t'. repeat split; try assumption.
    rewrite Hr, Hk, insert_do_nothing_no_keys, jsonb_values_rows. reflexivity.
Qed.

Lemma jsonb_batch_is_appended_witness :
  exists s' t',
    insert_jsonb_batch calm "subjects" [[("id", JNum 0)]] conn0
    = (Returns JNull, s')
    /\ lookup "subjects" (committed s') = Some t'
    /\ rows t'
       = [[("data", JObj [("id", JNum 0)]); ("created_at", JNum 1600000000)];
          [("data", JObj [("id", JNum 0)]); ("created_at", JNum 1700000000)]]
    /\ clean s'.
Proof.
  exact (jsonb_batch_is_appended calm "subjects" [[("id", JNum 0)]] conn0
           subjects0 (fun _ => eq_refl) eq_refl eq_refl (conj eq_refl eq_refl)
           eq_refl).
Defined.









Lemma execute_pages_ends env table cols how : forall pages s,
  fst (execute_pages env table cols how pages s) <> OutOfFuel.
Proof.
  induction pages as [|page rest IH]; intros s; [discriminate|].
  cbn [execute_pages]. unfold bind.
  destruct (cursor_execute env (mkInsert table cols page how) s)
    as [[[]|e|] s0] eqn:E.
  - apply IH.
  - discriminate.
  - unfold cursor_execute in E.
    destruct (fault env (length (calls s))); [discriminate|].
    destruct (execute _ (pending s)); discriminate.
Qed.

(** A guarded write commits and returns, or rolls back and raises. *)
Lemma guarded_write_ends env table cols how values s :
  ends_transaction
    (try_except
       (execute_values env table cols how values ;;; commit env ;;; ret JNull)
       (fun e => rollback ;;; raise e) s).
Proof.
  unfold ends_transaction, try_except, bind, execute_values.
  pose proof (execute_pages_ends env table cols how (pages_of 100 values) s) as Hend.
  destruct (execute_pages env table cols how (pages_of 100 values) s)
    as [[[]|e|] s1]; cbn [fst] in Hend.
  - unfold commit. destruct (fault env (length (calls s1))).
    + split; [reflexivity|]. right. eexists. split; reflexivity.
    + split; [reflexivity|]. left. split; reflexivity.
  - split; [reflexivity|]. right. eexists. split; reflexivity.
  - congruence.
Qed.

(** X12.  A call of [insert_batch], [insert_jsonb_batch] or [upsert_batch]
    with a batch that is not empty never leaves a transaction open,
    whatever the storage does and whatever was pending before: it ends with
    a commit and returns [None], or ends with a rollback and raises. *)
Theorem writers_end_their_transaction
        (env : Env) (table : string) (data : list Row)
        (conflict_columns : list string) (s : Conn) :
  data <> [] ->
  ends_transaction (insert_batch env table data s)
  /\ ends_transaction (insert_jsonb_batch env table data s)
  /\ ends_transaction (upsert_batch env table data conflict_columns s).
Proof.
  intros Hne. destruct data as [|first rest]; [congruence|].
  repeat split; apply guarded_write_ends.
Qed.

Lemma writers_end_their_transaction_witness :
  ends_transaction (insert_batch second_call_fails "subjects" batch150 conn0)
  /\ ends_transaction
       (insert_jsonb_batch second_call_fails "subjects" batch150 conn0)
  /\ ends_transaction
       (upsert_batch second_call_fails "subjects" batch150 ["id"] conn0).
Proof.
  exact (writers_end_their_transaction second_call_fails "subjects" batch150
           ["id"] conn0 ltac:(discriminate)).
Defined.

Lemma insert_do_nothing_grows keys : forall new old,
  exists added,
    insert_do_nothing keys old new = (old ++ added)%list
    /\ (length added <= length new)%nat.
Proof.
  induction new as [|r new IH]; intros old; simpl.
  - exists []. split; [now rewrite app_nil_r|simpl; lia].
  - destruct (violates keys r old).
    + destruct (IH old) as (added & E & Hl).
      exists added. split; [exact E|lia].
    + destruct (IH (old ++ [r])%list) as (added & E & Hl).
      exists (r :: added). split.
      * rewrite E, <- app_assoc. reflexivity.
      * simpl. lia.
Qed.

Lemma guarded_do_nothing_appends env table cols values s t :
  clean s ->
  lookup table (committed s) = Some t ->
  let r := try_except
             (execute_values env table cols DoNothing values ;;;
              commit env ;;; ret JNull)
             (fun e => rollback ;;; raise e) s in
  exists t' added,
    lookup table (committed (snd r)) = Some t'
    /\ rows t' = (rows t ++ added)%list
    /\ (length added <= length values)%nat
    /\ forall other, other <> table ->
                     lookup other (committed (snd r)) = lookup other (committed s).
Proof.
  intros Hclean Ht r.
  destruct (guarded_write_ends env table cols DoNothing values s)
    as [_ [[Hret _]|(e & Hraise & _)]]; fold r in Hret || fold r in Hraise.
  - destruct r as [o s'] eqn:Er. cbn [fst snd] in *. subst o.
    destruct (guarded_do_nothing_returned env table cols values s JNull s' t
                Hclean Ht Er) as (t' & Hl & _ & _ & Hr & Ho & _).
    destruct (insert_do_nothing_grows (unique_keys t)
                (map (fun tuple => combine cols tuple) values) (rows t))
      as (added & E & Hlen).
    exists t', added. repeat split.
    + exact Hl.
    + now rewrite Hr.
    + now rewrite length_map in Hlen.
    + exact Ho.
  - destruct r as [o s'] eqn:Er. cbn [fst snd] in *. subst o.
    apply guarded_write_raises in Er as [Hc _].
    exists t, []. repeat split.
    + now rewrite Hc.
    + now rewrite app_nil_r.
    + simpl. lia.
    + intros other _. now rewrite Hc.
Qed.

(** X11.  [insert_batch] and [insert_jsonb_batch] never change or remove a
    row: however the call ends, the rows the table had are still there, in
    their order, followed by at most one new row per record of the batch,
    and the other tables are as they were. *)
Theorem do_nothing_writers_only_append
        (env : Env) (table : string) (data : list Row) (s : Conn) (t : Table)
        (r : outcome json * Conn) :
  clean s ->
  lookup table (committed s) = Some t ->
  r = insert_batch env table data s
  \/ r = insert_jsonb_batch env table data s ->
  exists t' added,
    lookup table (committed (snd r)) = Some t'
    /\ rows t' = (rows t ++ added)%list
    /\ (length added <= length data)%nat
    /\ forall other, other <> table ->
                     lookup other (committed (snd r)) = lookup other (committed s).
Proof.
  intros Hclean Ht Hr.
  destruct data as [|first rest].
  - exists t, []. destruct Hr as [-> | ->]; cbn [insert_batch insert_jsonb_batch];
      (repeat split; [exact Ht|now rewrite app_nil_r|simpl; lia]).
  - destruct Hr as [-> | ->].
    + destruct (guarded_do_nothing_appends env table
                  (upsert_columns (first :: rest))
                  (upsert_values (first :: rest)) s t Hclean Ht)
        as (t' & added & Hl & Hrows & Hlen & Ho).
      exists t', added. repeat split; try assumption.
      unfold upsert_values in Hlen. now rewrite length_map in Hlen.
    + destruct (guarded_do_nothing_appends env table ["data"; "created_at"]
                  (jsonb_values env (first :: rest)) s t Hclean Ht)
        as (t' & added & Hl & Hrows & Hlen & Ho).
      exists t', added. repeat split; try assumption.
      unfold jsonb_values in Hlen.
      rewrite length_map, length_combine, length_seq, Nat.min_id in Hlen.
      exact Hlen.
Qed.

Lemma do_nothing_writers_only_append_witness :
  exists t' added,
    lookup "subjects"
           (committed (snd (insert_jsonb_batch calm "subjects" batch150 conn0)))
    = Some t'
    /\ rows t' = (rows subjects0 ++ added)%list
    /\ (length added <= length batch150)%nat
    /\ forall other, other <> "subjects" ->
          lookup other
                 (committed (snd (insert_jsonb_batch calm "subjects" batch150
                                                     conn0)))
          = lookup other (committed conn0).
Proof.
  exact (do_nothing_writers_only_append calm "subjects" batch150 conn0
           subjects0 (insert_jsonb_batch calm "subjects" batch150 conn0)
           eq_refl eq_refl (or_intror eq_refl)).
Defined.

Lemma pages_from_not_empty {A} page_size : forall (l : list A) room page,
  page <> [] \/ l <> [] -> pages_from page_size room page l <> [].
Proof.
  induction l as [|x rest IH]; intros room page H.
  - destruct H as [H|H]; [|congruence]. simpl.
    destruct page; [congruence|discriminate].
  - cbn [pages_from]. destruct room as [|[|r]]; try discriminate.
    apply IH. left. discriminate.
Qed.

Lemma run_insert_update_rejected table cols page target set_columns t :
  target = [] \/ set_columns = [] ->
  run_insert (mkInsert table cols page (DoUpdate target set_columns)) t = None.
Proof.
  intros H. unfold run_insert. cbn [columns tuples on_conflict].
  destruct cols as [|c cols']; [reflexivity|].
  destruct (negb (no_dup (c :: cols'))); [reflexivity|].
  destruct (negb (forallb (fun col => mem col (table_columns t)) (c :: cols')));
    [reflexivity|].
  destruct target as [|k target']; [reflexivity|].
  destruct set_columns as [|u set']; [reflexivity|].
  destruct H; discriminate.
Qed.

(** X13.  [upsert_batch] cannot succeed when it is given no conflict
    column, or when every field of the first record is a conflict column
    (then its [SET] list is empty): for a batch that is not empty the call
    raises, on every storage, and leaves the tables as they were. *)
Theorem upsert_without_update_columns_raises
        (env : Env) (table : string) (data : list Row)
        (conflict_columns : list string) (s : Conn) :
  clean s ->
  data <> [] ->
  conflict_columns = [] \/ update_columns data conflict_columns = [] ->
  fst (upsert_batch env table data conflict_columns s) = Raises DatabaseError
  /\ committed (snd (upsert_batch env table data conflict_columns s))
     = committed s
  /\ pending (snd (upsert_batch env table data conflict_columns s))
     = pending s.
Proof.
  intros Hclean Hne Hbad.
  destruct data as [|first rest]; [congruence|].
  cbn [upsert_batch]. unfold try_except, bind, execute_values.
  destruct (pages_of 100 (upsert_values (first :: rest))) as [|page more] eqn:Ep.
  { exfalso. revert Ep. apply pages_from_not_empty. right. discriminate. }
  cbn [execute_pages]. unfold bind, cursor_execute.
  unfold clean in Hclean.
  destruct (fault env (length (calls s))).
  - unfold rollback, raise. cbn. auto.
  - unfold execute. cbn [into].
    destruct (lookup table (pending s)) as [t|].
    + rewrite run_insert_update_rejected by exact Hbad.
      unfold rollback, raise. cbn. auto.
    + unfold rollback, raise. cbn. auto.
Qed.

Lemma upsert_without_update_columns_raises_witness :
  fst (upsert_batch calm "contracts" [[("id", JNum 1)]] ["id"] conn0)
  = Raises DatabaseError
  /\ committed (snd (upsert_batch calm "contracts" [[("id", JNum 1)]] ["id"]
                                  conn0)) = committed conn0
  /\ pending (snd (upsert_batch calm "contracts" [[("id", JNum 1)]] ["id"]
                                conn0)) = pending conn0.
Proof.
  exact (upsert_without_update_columns_raises calm "contracts"
           [[("id", JNum 1)]] ["id"] conn0 eq_refl ltac:(discriminate)
           (or_intror eq_refl)).
Defined.

End DBMore.

(* ================================================================== *)
(** * The loads: fetch, then persist *)
(* ================================================================== *)

Section ETLFacts.
Import Py Client DB ETL Scenario DBScenario.
Open Scope py_scope.

Lemma load_table_nothing_fetched env fetch table s w' :
  fetch (world s) = (Returns [], w') ->
  load_table env fetch table s = (Returns tt, mkSys w' (conn s)).
Proof.
  intros H. unfold load_table, try_except, bind, on_api. rewrite H. reflexivity.
Qed.

Lemma load_table_fetched env fetch table s data w' :
  fetch (world s) = (Returns data, w') ->
  data <> [] ->
  load_table env fetch table s
  = (Returns tt,
     mkSys w' (snd (insert_jsonb_batch_json env table data (conn s)))).
Proof.
  intros H Hne. unfold load_table, try_except, bind, on_api. rewrite H.
  cbn [fst snd]. destruct data as [|x data]; [congruence|].
  unfold on_db. cbn [conn world].
  cbn [insert_jsonb_batch_json].
  destruct (guarded_write_ends env table ["data"; "created_at"] DoNothing
              (jsonb_values_json env (x :: data)) (conn s))
    as [_ [[Hr _]|(e & Hr & _)]]; rewrite Hr; reflexivity.
Qed.



(** X15.  A failure of the storage during a load does not reach the
    caller: when the write of the fetched items raises, the load still
    returns normally, the batch is rolled back and the tables are as they
    were before the load. *)
Theorem storage_failure_is_swallowed
        (env : Env) (fetch : St World (list json)) (table : string)
        (s : Sys) (data : list json) (w' : World) (e : exn) (c' : Conn) :
  fetch (world s) = (Returns data, w') ->
  insert_jsonb_batch_json env table data (conn s) = (Raises e, c') ->
  clean (conn s) ->
  load_table env fetch table s = (Returns tt, mkSys w' c')
  /\ committed c' = committed (conn s)
  /\ clean c'.
Proof.
  intros Hfetch Hins Hclean.
  destruct data as [|x data]; [discriminate|].
  rewrite (load_table_fetched env fetch table s (x :: data) w' Hfetch)
    by discriminate.
  rewrite Hins. split; [reflexivity|].
  cbn [insert_jsonb_batch_json] in Hins.
  apply guarded_write_raises in Hins as [Hc Hp].
  split; [exact Hc|]. unfold clean. congruence.
Qed.

Lemma storage_failure_is_swallowed_witness :
  load_subjects client3 subjects_server second_call_fails 2
                (mkSys world0 conn0)
  = (Returns tt,
     mkSys {| sent := [get_url subjects_all_url2; get_url subjects_all_url];
              slept := [1; 1] |}
           (snd (insert_jsonb_batch_json second_call_fails "subjects"
                                         [item 1; item 2; item 3] conn0)))
  /\ committed (snd (insert_jsonb_batch_json second_call_fails "subjects"
                                             [item 1; item 2; item 3] conn0))
     = committed conn0
  /\ clean (snd (insert_jsonb_batch_json second_call_fails "subjects"
                                         [item 1; item 2; item 3] conn0)).
Proof.
  refine (storage_failure_is_swallowed second_call_fails
            (get_subjects_all client3 subjects_server 2) "subjects"
            (mkSys world0 conn0) [item 1; item 2; item 3]
            {| sent := [get_url subjects_all_url2; get_url subjects_all_url];
               slept := [1; 1] |}
            DatabaseError
            (snd (insert_jsonb_batch_json second_call_fails "subjects"
                                          [item 1; item 2; item 3] conn0))
            _ _ eq_refl).
  - vm_compute. reflexivity.
  - vm_compute. reflexivity.
Defined.

Lemma jsonb_values_json_rows env data :
  map (fun tuple => combine ["data"; "created_at"] tuple)
      (jsonb_values_json env data)
  = jsonb_rows_json env data.
Proof.
  unfold jsonb_values_json, jsonb_rows_json. rewrite map_map. apply map_ext.
  intros [i r]. reflexivity.
Qed.

Lemma jsonb_json_is_appended env table data c t :
  faultless env -> clean c ->
  lookup table (committed c) = Some t ->
  document_table t -> unique_keys t = [] ->
  exists t',
    fst (insert_jsonb_batch_json env table data c) = Returns JNull
    /\ lookup table (committed (snd (insert_jsonb_batch_json env table data c)))
       = Some t'
    /\ rows t' = (rows t ++ jsonb_rows_json env data)%list.
Proof.
  intros Hf Hclean Ht [Hd Hc] Hk.
  destruct data as [|x data].
  - exists t. repeat split; [exact Ht|now rewrite app_nil_r].
  - cbn [insert_jsonb_batch_json].
    destruct (guarded_do_nothing_ok env table ["data"; "created_at"]
                (jsonb_values_json env (x :: data)) c t Hf Hclean Ht
                ltac:(discriminate) eq_refl) as (c' & t' & E & _ & Hl & _ & _ & Hr).
    { cbn [forallb]. now rewrite Hd, Hc. }
    exists t'. rewrite E. repeat split; [exact Hl|].
    rewrite Hr, Hk, insert_do_nothing_no_keys, jsonb_values_json_rows.
    reflexivity.
Qed.

(** X16.  When the pages of an endpoint are obtained one after the other up
    to a page without [next_page], the storage has no fault and the table
    has no unique constraint, the load returns and the table holds, after
    its former rows, one row per fetched item, in the order of the pages
    and of the items within them. *)
Theorem load_appends_fetched_items
        (api : GoszakupAPIClient) (srv : Server) (env : Env)
        (endpoint table : string) (pages : list (list json)) (next : json)
        (w1 w2 : World) (kv : list (string * json)) (last : list json)
        (fuel : nat) (s : Sys) (t : Table) :
  followed api srv endpoint JNull JNull (world s) pages next w1 ->
  page_request api srv endpoint JNull next w1 = (Returns (JObj kv), w2) ->
  kv <> [] ->
  dict_get kv "items" (JArr []) = JArr last ->
  truthy (dict_get kv "next_page" JNull) = false ->
  faultless env ->
  clean (conn s) ->
  lookup table (committed (conn s)) = Some t ->
  document_table t ->
  unique_keys t = [] ->
  exists c' t',
    load_table env (_paginate api srv (length pages + S fuel) endpoint JNull)
               table s
    = (Returns tt, mkSys w2 c')
    /\ lookup table (committed c') = Some t'
    /\ rows t'
       = (rows t ++ jsonb_rows_json env (concat (pages ++ [last])))%list.
Proof.
  intros Hfol Hreq Hkv Hitems Hnp Hf Hclean Ht Hdoc Hk.
  assert (Hfetch : _paginate api srv (length pages + S fuel) endpoint JNull
                             (world s)
                   = (Returns (concat (pages ++ [last])), w2)).
  { unfold _paginate.
    rewrite (paginate_loop_followed _ _ _ _ _ _ _ _ _ Hfol (S fuel) []).
    cbn [app]. rewrite concat_app. cbn [concat]. rewrite app_nil_r.
    eapply paginate_loop_last; eauto. }
  destruct (jsonb_json_is_appended env table (concat (pages ++ [last]))
              (conn s) t Hf Hclean Ht Hdoc Hk) as (t' & Hret & Hl & Hr).
  destruct (concat (pages ++ [last])) as [|x data] eqn:Ec.
  - exists (conn s), t. split; [|split].
    + now apply load_table_nothing_fetched.
    + exact Ht.
    + now rewrite app_nil_r.
  - exists (snd (insert_jsonb_batch_json env table (x :: data) (conn s))), t'.
    split; [|split; assumption].
    apply load_table_fetched; [exact Hfetch|discriminate].
Qed.

Lemma subjects_server_followed :
  followed client3 subjects_server "/v3/subject/all" JNull
           JNull world0 [[item 1; item 2]] (JStr subjects_all_url2)
           {| sent := [get_url subjects_all_url]; slept := [1] |}.
Proof.
  eapply followed_cons;
    [reflexivity|discriminate|reflexivity|reflexivity|reflexivity
    |apply followed_nil].
Defined.

Lemma load_appends_fetched_items_witness :
  exists c' t',
    load_subjects client3 subjects_server calm 2 (mkSys world0 conn0)
    = (Returns tt,
       mkSys {| sent := [get_url subjects_all_url2; get_url subjects_all_url];
                slept := [1; 1] |} c')
    /\ lookup "subjects" (committed c') = Some t'
    /\ rows t'
       = (rows subjects0
          ++ [[("data", item 1); ("created_at", JNum 1700000000)];
              [("data", item 2); ("created_at", JNum 1700000001)];
              [("data", item 3); ("created_at", JNum 1700000002)]])%list.
Proof.
  exact (load_appends_fetched_items client3 subjects_server calm
           "/v3/subject/all" "subjects" [[item 1; item 2]]
           (JStr subjects_all_url2)
           {| sent := [get_url subjects_all_url]; slept := [1] |}
           {| sent := [get_url subjects_all_url2; get_url subjects_all_url];
              slept := [1; 1] |}
           [("items", JArr [item 3]); ("next_page", JNull)] [item 3] 0
           (mkSys world0 conn0) subjects0
           subjects_server_followed eq_refl ltac:(discriminate) eq_refl eq_refl
           (fun _ => eq_refl) eq_refl eq_refl (conj eq_refl eq_refl) eq_refl).
Defined.







End ETLFacts.

(* ================================================================== *)
(** * More about the order of the tasks *)
(* ================================================================== *)

Section DagMore.
Import Dag.

Lemma schedulable_reachable : forall l s,
  reachable s -> schedulable l s = true -> reachable (run_in_order l s).
Proof.
  induction l as [|t rest IH]; intros s Hs H; [exact Hs|].
  cbn [schedulable] in H. destruct (s t) eqn:Et; try discriminate.
  apply andb_prop in H as [Hup Hrest].
  cbn [run_in_order fold_left]. apply IH; [|exact Hrest].
  apply reachable_finish; [|apply update_eq].
  now apply reachable_run.
Qed.

(** The computed ancestors are ancestors. *)
Lemma ancestors_upto_ancestor : forall n t u,
  In u (ancestors_upto n t) -> ancestor u t.
Proof.
  induction n as [|n IH]; intros t u H; [contradiction|].
  cbn [ancestors_upto] in H. apply in_flat_map in H as (v & Hv & [<-|Hu]).
  - now apply ancestor_direct.
  - eapply ancestor_step; [apply IH; exact Hu|exact Hv].
Qed.

(** X18.  The dependencies have no cycle, and the order in which
    [run_full_etl] calls the loads is one the DAG allows: running the
    connection check, the loads in that order and the statistics, one task
    at a time, is an execution of the scheduler, at the end of which every
    task has succeeded; each task of that order finds all its upstream
    tasks succeeded when its turn comes. *)
Theorem sequential_order_is_a_schedule :
  (forall t, ~ ancestor t t)
  /\ reachable (run_in_order sequential_run initial)
  /\ (forall t, run_in_order sequential_run initial t = Succeeded)
  /\ schedulable sequential_run initial = true.
Proof.
  split; [|split; [|split]].
  - intros t H. apply ancestor_in_ancestors in H. apply inb_In in H.
    destruct t; vm_compute in H; discriminate.
  - apply schedulable_reachable; [apply reachable_initial|reflexivity].
  - intros t. destruct t; reflexivity.
  - reflexivity.
Qed.

(** X19.  The statistics do not wait for the applications: when
    [print_statistics] has started, every other task but
    [load_applications] has succeeded, and there is an execution in which
    the statistics have run to the end while [load_applications] has not
    even started. *)
Theorem statistics_do_not_wait_for_applications :
  (forall s t,
      reachable s -> s print_statistics <> Waiting ->
      t <> load_applications -> t <> print_statistics ->
      s t = Succeeded)
  /\ reachable statistics_without_applications
  /\ statistics_without_applications print_statistics = Succeeded
  /\ statistics_without_applications load_applications = Waiting.
Proof.
  split; [|split; [|split; reflexivity]].
  - intros s t Hs Hstat Ha Hp.
    apply (reachable_ancestors_succeeded s Hs t print_statistics); [|exact Hstat].
    apply (ancestors_upto_ancestor (length all_tasks)).
    apply inb_In. destruct t; try reflexivity; congruence.
  - unfold statistics_without_applications.
    apply reachable_finish; [|reflexivity].
    apply reachable_run; [|reflexivity|reflexivity].
    apply schedulable_reachable;
      [apply reachable_references_done|reflexivity].
Qed.

Lemma statistics_do_not_wait_for_applications_witness :
  statistics_without_applications load_payments = Succeeded
  /\ statistics_without_applications load_subjects = Succeeded.
Proof.
  assert (Hs : reachable statistics_without_applications)
    by exact (proj1 (proj2 statistics_do_not_wait_for_applications)).
  split.
  - apply (proj1 statistics_do_not_wait_for_applications _ load_payments Hs);
      discriminate.
  - apply (proj1 statistics_do_not_wait_for_applications _ load_subjects Hs);
      discriminate.
Defined.

Lemma steps_reachable s s' : reachable s -> steps s s' -> reachable s'.
Proof.
  intros Hs H. induction H as [s|s s1 s2 Hstep _ IH]; [exact Hs|].
  apply IH. eapply reachable_step; eauto.
Qed.

(** A task that has failed stays failed. *)
Lemma step_failed_stays s s' u : step s s' -> s u = Failed -> s' u = Failed.
Proof.
  intros Hstep Hu.
  destruct Hstep as [s t0 Hw _|s t0 Hr|s t0 Hr|s t0 Hr];
    (rewrite update_neq; [exact Hu|intros ->; congruence]).
Qed.

Lemma steps_failed_stays s s' u : steps s s' -> s u = Failed -> s' u = Failed.
Proof.
  intros H. induction H as [s|s s1 s2 Hstep _ IH]; intros Hu; [exact Hu|].
  apply IH. eapply step_failed_stays; eauto.
Qed.

(** X20.  A task that has failed for good blocks everything that depends
    on it, directly or not: from then on, whatever the scheduler does, the
    task stays failed and none of its descendants ever leaves the waiting
    state. *)
Theorem failure_blocks_descendants (s s' : State) (u t : Task) :
  reachable s ->
  s u = Failed ->
  steps s s' ->
  ancestor u t ->
  s' u = Failed /\ s' t = Waiting.
Proof.
  intros Hs Hu Hsteps Hanc.
  pose proof (steps_failed_stays s s' u Hsteps Hu) as Hu'.
  split; [exact Hu'|].
  pose proof (steps_reachable s s' Hs Hsteps) as Hs'.
  destruct (s' t) eqn:Et; [reflexivity| | |];
    (assert (Hne : s' t <> Waiting) by congruence;
     pose proof (reachable_ancestors_succeeded s' Hs' u t Hanc Hne);
     congruence).
Qed.

Lemma reachable_plans_failed : reachable plans_failed.
Proof.
  unfold plans_failed.
  apply (reachable_step (run references_done load_plans)).
  - apply reachable_run; [apply reachable_references_done| |]; reflexivity.
  - apply step_fail. reflexivity.
Qed.

Lemma steps_subjects_after_plans_failed :
  steps plans_failed (finish (run plans_failed load_subjects) load_subjects).
Proof.
  apply (steps_step _ (run plans_failed load_subjects)).
  - apply step_start; [reflexivity|].
    intros u [<-|[]]. reflexivity.
  - apply (steps_step _ (finish (run plans_failed load_subjects) load_subjects));
      [|apply steps_refl].
    apply step_succeed. reflexivity.
Qed.

Lemma failure_blocks_descendants_witness :
  finish (run plans_failed load_subjects) load_subjects load_plans = Failed
  /\ finish (run plans_failed load_subjects) load_subjects load_contracts
     = Waiting.
Proof.
  apply (failure_blocks_descendants plans_failed _ load_plans load_contracts
           reachable_plans_failed eq_refl steps_subjects_after_plans_failed).
  apply (ancestors_upto_ancestor (length all_tasks)).
  apply inb_In. reflexivity.
Defined.

End DagMore.
